(** * hh-cv-updater: a shallow embedding of the session client and its command line

    The development follows the two source files:
    - [core]  is [src/hh_updater/core.py]     (class [HHUpdater]);
    - [main]  is [src/hh_updater/__main__.py] (commands [update] and [check]).

    The HTTP library (httpx) and the remote site are the environment.  The
    remote site and the connection are a transport: a transition function on
    an abstract network state that answers one request with a response or a
    fault.  The part of the httpx client the source uses is modelled on top
    of the transport: building a request (which fails, before anything is
    sent, on a URL that is not accepted or on a header that is not ASCII),
    the refusal of a closed client, the following of redirects
    ([follow_redirects = True]) with httpx's default bound of 20, and the
    lookup of a cookie by name in the cookies of a response (which fails
    when two cookies have the name).

    Python strings are [string]s holding their UTF-8 encoding; [Optional[str]]
    is [option string]; exceptions are values of [exn] carried by [Raise]. *)

From Stdlib Require Import ZArith Lia Ascii.
From stdpp Require Import base option list strings gmap.

Open Scope Z_scope.

(** ** Python values *)

(** The exception classes that occur.  All of them derive from [Exception]
    ([typer.Exit] is click's [Exit], a [RuntimeError]), so a handler
    [except Exception] catches every one of them. *)
Inductive exn : Type :=
| AttributeError (msg : string)
| RuntimeError (msg : string)
| UnicodeEncodeError (msg : string)
| InvalidURL (msg : string)
| CookieConflict (msg : string)
| HTTPError (msg : string)
| Exit (code : Z).

Inductive Res (A : Type) : Type :=
| Ok (a : A)
| Raise (e : exn).
Arguments Ok {A} a.
Arguments Raise {A} e.

(** Truth value of a [str]: the empty string is false. *)
Definition nonempty (s : string) : bool :=
  match s with
  | EmptyString => false
  | String _ _ => true
  end.

(** Truth value of an [Optional[str]]: [None] and [''] are false. *)
Definition truthy (o : option string) : bool :=
  match o with
  | None => false
  | Some s => nonempty s
  end.

(** [o or d] for an [Optional[str]] [o]. *)
Definition py_or (o : option string) (d : string) : string :=
  match o with
  | Some s => if nonempty s then s else d
  | None => d
  end.

(** [s or None] for a [str] [s]. *)
Definition or_None (s : string) : option string :=
  if nonempty s then Some s else None.

(** [s.rstrip(c)] for a one-character ASCII argument [c]: every trailing
    occurrence of [c] is removed.  (A byte below 128 never occurs inside the
    encoding of another character, so working on the UTF-8 bytes is exact.) *)
Fixpoint rstrip (c : ascii) (s : string) : string :=
  match s with
  | EmptyString => EmptyString
  | String a r =>
      match rstrip c r with
      | EmptyString => if Ascii.eqb a c then EmptyString else String a EmptyString
      | r' => String a r'
      end
  end.

(** A byte [10xxxxxx] continues the character started before it. *)
Definition is_continuation (a : ascii) : bool :=
  let n := N_of_ascii a in (128 <=? n)%N && (n <? 192)%N.

(** [s[:n]]: the first [n] characters (code points) of [s], all of [s] when
    it has fewer. *)
Fixpoint slice_to (n : nat) (s : string) : string :=
  match s with
  | EmptyString => EmptyString
  | String a r =>
      if is_continuation a then String a (slice_to n r)
      else match n with
           | O => EmptyString
           | S m => String a (slice_to m r)
           end
  end.

(** [s.encode('ascii')] succeeds: every character of [s] is below 128. *)
Fixpoint ascii_only (s : string) : bool :=
  match s with
  | EmptyString => true
  | String a r => (N_of_ascii a <? 128)%N && ascii_only r
  end.

(** [len(s)]: the number of characters of [s]. *)
Fixpoint py_len (s : string) : nat :=
  match s with
  | EmptyString => O
  | String a r => if is_continuation a then py_len r else S (py_len r)
  end.

(** [s[-1]] when [s] is not empty. *)
Fixpoint last_char (s : string) : option ascii :=
  match s with
  | EmptyString => None
  | String a r =>
      match r with
      | EmptyString => Some a
      | String _ _ => last_char r
      end
  end.

(** [n * c]: the string of [n] copies of the character [c]. *)
Fixpoint replicate_char (n : nat) (c : ascii) : string :=
  match n with
  | O => EmptyString
  | S m => String c (replicate_char m c)
  end.

(** ** A state and exception monad

    [M St A] is a computation on a state [St] that returns an [A] or raises. *)
Definition M (St A : Type) : Type := St -> Res A * St.

Definition ret {St A} (a : A) : M St A := fun s => (Ok a, s).

Definition bind {St A B} (c : M St A) (k : A -> M St B) : M St B :=
  fun s =>
    match c s with
    | (Ok a, s') => k a s'
    | (Raise e, s') => (Raise e, s')
    end.

Definition raise {St A} (e : exn) : M St A := fun s => (Raise e, s).

(** [try: body / except Exception as e: handler e]. *)
Definition try_except {St A} (body : M St A) (handler : exn -> M St A) : M St A :=
  fun s =>
    match body s with
    | (Ok a, s') => (Ok a, s')
    | (Raise e, s') => handler e s'
    end.

Definition modify {St} (f : St -> St) : M St unit := fun s => (Ok tt, f s).

(** [if b: c] with no [else]. *)
Definition when {St} (b : bool) (c : M St unit) : M St unit :=
  if b then c else ret tt.

Declare Scope monad_scope.
Delimit Scope monad_scope with monad.
Notation "x <- c ;; k" := (bind c (fun x => k))
  (at level 100, c at next level, right associativity) : monad_scope.
Notation "c ;; k" := (bind c (fun _ => k))
  (at level 100, right associativity) : monad_scope.
Open Scope monad_scope.

(** ** The HTTP layer (httpx) *)
Module httpx.

Inductive Method : Type := GET | POST.

(** A request: the method, the URL, the headers and the form fields
    ([data=]).  A form value can be [None] at run time. *)
Record Request : Type := {
  method : Method;
  url : string;
  headers : gmap string string;
  data : gmap string (option string)
}.

(** A cookie of a jar: two cookies of one jar can have the same name when
    their domain or path differ; a cookie set without [=] has no value. *)
Record Cookie : Type := {
  cookie_name : string;
  cookie_value : option string;
  cookie_domain : string;
  cookie_path : string
}.

(** A response: the status code, the [Location] header when there is one,
    and the cookies this response sets ([response.cookies]), in the order
    the jar yields them. *)
Record Response : Type := {
  status_code : Z;
  location : option string;
  cookies : list Cookie
}.

(** The loop of [Cookies.get(name)] over the jar: [value] is what was found
    so far; a second cookie of that name after a value was found is a
    conflict. *)
Fixpoint Cookies_get_from (name : string) (jar : list Cookie) (value : option string)
    : Res (option string) :=
  match jar with
  | [] => Ok value
  | cookie :: rest =>
      if String.eqb (cookie_name cookie) name then
        match value with
        | Some _ => Raise (CookieConflict ("Multiple cookies exist with name=" +:+ name))
        | None => Cookies_get_from name rest (cookie_value cookie)
        end
      else Cookies_get_from name rest value
  end.

(** [cookies.get(name)], with no domain, path or default given. *)
Definition Cookies_get (name : string) (jar : list Cookie) : Res (option string) :=
  Cookies_get_from name jar None.

(** The environment: the network and the remote site answer one request
    (a response, or a fault: timeout, DNS, TLS, ...) and change state;
    [url_error] is the exception of [httpx.URL(url)] for a URL it does not
    accept; [build_redirect_request] is httpx's construction of the
    follow-up request of a redirect response, which can fail on a bad
    [Location]. *)
Class Http : Type := {
  Net : Type;
  transport : Net -> Request -> Net * Res Response;
  url_error : string -> option exn;
  build_redirect_request : Request -> Response -> Res Request
}.

(** [Headers(headers)] of the headers given to a call: names and values are
    encoded as ASCII. *)
Definition encodable (h : gmap string string) : bool :=
  bool_decide (map_Forall (fun k v => ascii_only k = true /\ ascii_only v = true) h).

(** [Response.has_redirect_location]. *)
Definition is_redirect_status (code : Z) : bool :=
  (code =? 301) || (code =? 302) || (code =? 303) || (code =? 307) || (code =? 308).

Definition has_redirect_location (r : Response) : bool :=
  is_redirect_status (status_code r) && bool_decide (is_Some (location r)).

(** [DEFAULT_MAX_REDIRECTS]. *)
Definition max_redirects : nat := 20.

(** One request on the wire and what came back. *)
Definition Exchange : Type := (Request * Res Response)%type.

(** What the client did, as seen from outside: a call of [client.get] or
    [client.post] with the exchanges it caused and what it gave back to
    its caller, or [client.close()]. *)
Inductive event : Type :=
| ClientCall (request : Request) (wire : list Exchange) (answer : Res Response)
| ClientClose.

(** [httpx.Client]: the configuration the source sets, and whether the
    client has been closed.  (The cookie jar is part of the network
    state.) *)
Record Client : Type := {
  default_headers : gmap string string;
  follow_redirects : bool;
  is_closed : bool
}.

Section WithHttp.
Context `{Http}.

Record World : Type := {
  net : Net;
  log : list event
}.

(** [Client._send_handling_redirects]: [sends] is how many more requests
    may go out; the client gives up when the history is longer than
    [max_redirects]. *)
Fixpoint send_handling_redirects (sends : nat) (follow : bool)
    (request : Request) (n : Net) : Res Response * list Exchange * Net :=
  match sends with
  | O => (Raise (HTTPError "Exceeded maximum allowed redirects."), [], n)
  | S sends' =>
      let '(n', answer) := transport n request in
      match answer with
      | Raise e => (Raise e, [(request, answer)], n')
      | Ok response =>
          if has_redirect_location response then
            match build_redirect_request request response with
            | Raise e => (Raise e, [(request, answer)], n')
            | Ok next =>
                if follow then
                  let '(r, wire, n'') := send_handling_redirects sends' follow next n' in
                  (r, (request, answer) :: wire, n'')
                else (Ok response, [(request, answer)], n')
            end
          else (Ok response, [(request, answer)], n')
      end
  end.

(** [Client.build_request]: parse the URL, then merge the client's headers
    under the headers of the call, which are encoded here.  Either step can
    raise, before anything is sent. *)
Definition build_request (c : Client) (r : Request) : Res Request :=
  match url_error (url r) with
  | Some e => Raise e
  | None =>
      if encodable (headers r) then
        Ok {| method := method r; url := url r;
              headers := headers r ∪ default_headers c;
              data := data r |}
      else Raise (UnicodeEncodeError "'ascii' codec can't encode character")
  end.

(** [Client.request]: build the request, refuse to send when closed, send,
    and hand back the final response. *)
Definition request (c : Client) (r : Request) : M World Response :=
  fun w =>
    match build_request c r with
    | Raise e =>
        (Raise e, {| net := net w; log := log w ++ [ClientCall r [] (Raise e)] |})
    | Ok on_wire =>
        if is_closed c then
          let answer := Raise (RuntimeError "Cannot send a request, as the client has been closed.") in
          (answer, {| net := net w; log := log w ++ [ClientCall r [] answer] |})
        else
          let '(answer, wire, n') :=
            send_handling_redirects (S max_redirects) (follow_redirects c) on_wire (net w) in
          (answer, {| net := n'; log := log w ++ [ClientCall r wire answer] |})
    end.

(** [client.get(url)]. *)
Definition get (c : Client) (u : string) : M World Response :=
  request c {| method := GET; url := u; headers := ∅; data := ∅ |}.

(** [client.post(url, data=..., headers=...)]. *)
Definition post (c : Client) (u : string) (d : gmap string (option string))
    (h : gmap string string) : M World Response :=
  request c {| method := POST; url := u; headers := h; data := d |}.

(** [client.close()]: the client is closed from now on. *)
Definition close (c : Client) : M World Client :=
  fun w =>
    (Ok {| default_headers := default_headers c;
           follow_redirects := follow_redirects c;
           is_closed := true |},
     {| net := net w; log := log w ++ [ClientClose] |}).

End WithHttp.

End httpx.

(** ** core.py: the session client *)
Module core.
Import httpx.

(** [COMMON_HEADERS]. *)
Definition COMMON_HEADERS : gmap string string :=
  <["User-Agent" := "Mozilla/5.0 (Windows NT 6.1; Win64; x64) AppleWebKit/537.36"]>
  (<["Accept" := "text/html,application/xhtml+xml,application/xml;q=0.9,*/*;q=0.8"]>
  (<["Accept-Encoding" := "gzip, deflate, br"]>
  (<["Accept-Language" := "ru-RU,ru;q=0.9,en-US;q=0.8,en;q=0.7"]>
  (<["Connection" := "keep-alive"]>
  (<["DNT" := "1"]> ∅))))).

(** The three slots of an [HHUpdater]. *)
Record HHUpdater : Type := {
  base_url : string;
  client : Client;
  xsrf : option string
}.

(** [HHUpdater(base_url)].  The annotation says [str]; the command line can
    pass [None], and [None.rstrip] raises. *)
Definition __init__ (base_url : option string) : Res HHUpdater :=
  match base_url with
  | None => Raise (AttributeError "'NoneType' object has no attribute 'rstrip'")
  | Some b =>
      Ok {| base_url := rstrip "/" b;
            client := {| default_headers := COMMON_HEADERS;
                         follow_redirects := true;
                         is_closed := false |};
            xsrf := None |}
  end.

Section WithHttp.
Context `{Http}.

(** A method runs on the object and the world. *)
Definition Self : Type := (HHUpdater * World)%type.

Definition self : M Self HHUpdater := fun s => (Ok (fst s), s).

Definition http {A} (c : M World A) : M Self A :=
  fun s => let '(r, w) := c (snd s) in (r, (fst s, w)).

(** [self.xsrf = v]. *)
Definition set_xsrf (v : option string) : M Self unit :=
  modify (fun s => ({| base_url := base_url (fst s);
                       client := client (fst s);
                       xsrf := v |}, snd s)).

(** [self.client = c]. *)
Definition set_client (c : Client) : M Self unit :=
  modify (fun s => ({| base_url := base_url (fst s);
                       client := c;
                       xsrf := xsrf (fst s) |}, snd s)).

Definition login_url (this : HHUpdater) : string :=
  base_url this +:+ "/account/login?backurl=%2F".

Definition touch_url (this : HHUpdater) : string :=
  base_url this +:+ "/applicant/resumes/touch".

(** [__exit__]: close the client; returns [None], so an exception of the
    block is not suppressed. *)
Definition __exit__ : M Self unit :=
  this <- self;;
  c <- http (close (client this));;
  set_client c.

(** The value of an expression that can raise. *)
Definition eval {A} (r : Res A) : M Self A := fun s => (r, s).

Definition get_xsrf : M Self (option string) :=
  this <- self;;
  response <- http (get (client this) (login_url this));;
  value <- eval (Cookies_get "_xsrf" (cookies response));;
  set_xsrf value;;
  this <- self;;
  ret (xsrf this).

(** The form of the login POST. *)
Definition login_form (this : HHUpdater) (login password : option string)
    : gmap string (option string) :=
  <["username" := login]>
  (<["password" := password]>
  (<["backUrl" := Some (base_url this +:+ "/")]>
  (<["_xsrf" := Some (py_or (xsrf this) "")]>
  (<["action" := Some "Войти"]> ∅)))).

(** [auth(login, password)].  The annotations say [str]; the command line
    passes [None] for an empty login or password. *)
Definition auth (login password : option string) : M Self bool :=
  this <- self;;
  when (negb (truthy (xsrf this))) (_ <- get_xsrf;; ret tt);;
  this <- self;;
  response <- http (post (client this) (login_url this)
                         (login_form this login password) ∅);;
  ret (status_code response =? 200).

(** The headers and the form of the touch POST. *)
Definition touch_headers (this : HHUpdater) (cv_id : string) : gmap string string :=
  <["X-Xsrftoken" := default "" (xsrf this)]>
  (<["X-Requested-With" := "XMLHttpRequest"]>
  (<["Referer" := base_url this +:+ "/applicant/resumes/" +:+ cv_id]> ∅)).

Definition touch_form (cv_id : string) : gmap string (option string) :=
  <["resume" := Some cv_id]> (<["undirectable" := Some "true"]> ∅).

Definition update_cv (cv_id : string) : M Self bool :=
  this <- self;;
  if negb (truthy (xsrf this)) then ret false
  else
    response <- http (post (client this) (touch_url this)
                           (touch_form cv_id) (touch_headers this cv_id));;
    ret (status_code response =? 200).

End WithHttp.

End core.

(** ** __main__.py: the command line *)
Module main.
Import httpx.

(** The module-level variables [verbose], [base_url], [login], [password]. *)
Record Globals : Type := {
  verbose : bool;
  base_url : option string;
  login : option string;
  password : option string
}.

(** The callback [main]: it stores the options. *)
Definition main (_verbose : bool) (_base_url _login _password : string) : Globals :=
  {| verbose := _verbose || false;
     base_url := or_None _base_url;
     login := or_None _login;
     password := or_None _password |}.

(** What the commands print.  A message is kept with the values put into
    it, not as rendered text; the elapsed time of the summary line (a clock
    reading formatted as a float) is left out. *)
Inductive message : Type :=
| StartingUpdate (count : nat)
| UsingBaseUrl (base_url : option string)
| CvList (cv_ids : list string)
| GettingXsrf
| Authorizing
| AuthError
| AuthOk
| Updating (cv_id : string)
| Updated (cv_id : string)
| NotUpdated (cv_id : string)
| Summary (success_count total : nat)
| Unexpected (e : exn)
| Traceback
| Checking (base_url : string)
| Available (shown : string)
| NoXsrf
| CheckError (e : exn).

Inductive color : Type := GREEN | RED | BLUE.

(** A line of output: [typer.echo(typer.style(..., fg = c))], or a plain
    [typer.echo]. *)
Inductive line : Type :=
| Styled (fg : color) (m : message)
| Plain (m : message).

Section WithHttp.
Context `{Http}.

(** The process: what was printed, and the world of the HTTP layer. *)
Record Proc : Type := {
  stdout : list line;
  world : World
}.

Definition echo_proc (l : line) (p : Proc) : Proc :=
  {| stdout := stdout p ++ [l]; world := world p |}.

(** States that carry the process output. *)
Class Console (St : Type) : Type := echo_to : line -> St -> St.

#[local] Instance console_proc : Console Proc := echo_proc.

#[local] Instance console_block : Console (core.HHUpdater * Proc) :=
  fun l s => (fst s, echo_proc l (snd s)).

Definition echo {St} `{Console St} (l : line) : M St unit := modify (echo_to l).

Definition print_success {St} `{Console St} (m : message) : M St unit :=
  echo (Styled GREEN m).

Definition print_error {St} `{Console St} (m : message) : M St unit :=
  echo (Styled RED m).

Definition print_info {St} `{Console St} (m : message) : M St unit :=
  echo (Styled BLUE m).

(** A method call [updater.f(...)] inside a [with] block. *)
Definition call {A} (f : M core.Self A) : M (core.HHUpdater * Proc) A :=
  fun s =>
    let '(r, (updater, w)) := f (fst s, world (snd s)) in
    (r, (updater, {| stdout := stdout (snd s); world := w |})).

(** [with HHUpdater(base_url) as updater: body].  [__enter__] returns the
    object; [__exit__] runs on every way out of the block. *)
Definition with_HHUpdater {A} (base_url : option string)
    (body : M (core.HHUpdater * Proc) A) : M Proc A :=
  fun p =>
    match core.__init__ base_url with
    | Raise e => (Raise e, p)
    | Ok updater =>
        let '(r, s) := body (updater, p) in
        match call core.__exit__ s with
        | (Raise e, s') => (Raise e, snd s')
        | (Ok _, s') => (r, snd s')
        end
    end.

(** The loop [for cv_id in cv_ids] of [update]. *)
Fixpoint update_each (verbose : bool) (cv_ids : list string) (success_count : nat)
    : M (core.HHUpdater * Proc) nat :=
  match cv_ids with
  | [] => ret success_count
  | cv_id :: rest =>
      when verbose (print_info (Updating cv_id));;
      ok <- call (core.update_cv cv_id);;
      if ok then
        print_success (Updated cv_id);;
        update_each verbose rest (S success_count)
      else
        print_error (NotUpdated cv_id);;
        update_each verbose rest success_count
  end.

(** The command [update]. *)
Definition update (g : Globals) (cv_ids : list string) : M Proc unit :=
  when (verbose g)
    (print_info (StartingUpdate (length cv_ids));;
     print_info (UsingBaseUrl (base_url g));;
     print_info (CvList cv_ids));;
  try_except
    (with_HHUpdater (base_url g)
       (when (verbose g) (print_info GettingXsrf);;
        when (verbose g) (print_info Authorizing);;
        auth_success <- call (core.auth (login g) (password g));;
        if negb auth_success then
          print_error AuthError;;
          raise (Exit 1)
        else
          print_success AuthOk;;
          success_count <- update_each (verbose g) cv_ids 0%nat;;
          print_success (Summary success_count (length cv_ids));;
          if (success_count <? length cv_ids)%nat then raise (Exit 1)
          else ret tt))
    (fun e =>
       print_error (Unexpected e);;
       when (verbose g) (echo (Plain Traceback));;
       raise (Exit 1)).

(** The command [check]. *)
Definition check (base_url : string) : M Proc unit :=
  print_info (Checking base_url);;
  try_except
    (with_HHUpdater (Some base_url)
       (xsrf <- call core.get_xsrf;;
        if truthy xsrf then
          print_success (Available (slice_to 10 (default "" xsrf)))
        else
          print_error NoXsrf;;
          raise (Exit 1)))
    (fun e =>
       print_error (CheckError e);;
       raise (Exit 1)).

End WithHttp.

(** The exit status of a command: 0 when it returns, the code of
    [typer.Exit], and 1 for any other exception. *)
Definition exit_status (r : Res unit) : Z :=
  match r with
  | Ok _ => 0
  | Raise (Exit code) => code
  | Raise _ => 1
  end.

End main.

(** ** Reading the trace of a run *)
Module trace.
Import httpx.

(** The events (or lines) added to a log since an earlier log. *)
Definition since {A} (before after : list A) : list A :=
  drop (length before) after.

(** How many elements of [l] satisfy [f]. *)
Fixpoint count {A} (f : A -> bool) (l : list A) : nat :=
  match l with
  | [] => O
  | x :: r => if f x then S (count f r) else count f r
  end.

Definition request_of (e : event) : option Request :=
  match e with
  | ClientCall r _ _ => Some r
  | ClientClose => None
  end.

(** The requests the client was called with, in order. *)
Definition requests (evs : list event) : list Request := omap request_of evs.

(** The call handed a response with status 200 back to its caller. *)
Definition answered_200 (e : event) : bool :=
  match e with
  | ClientCall _ _ (Ok response) => status_code response =? 200
  | _ => false
  end.

(** The call raised. *)
Definition faulted (e : event) : bool :=
  match e with
  | ClientCall _ _ (Raise _) => true
  | _ => false
  end.

(** No call of the client raised. *)
Definition calm (evs : list event) : Prop :=
  Forall (fun e => faulted e = false) evs.

(** The object with its token slot set to [v]. *)
Definition with_xsrf (this : core.HHUpdater) (v : option string) : core.HHUpdater :=
  {| core.base_url := core.base_url this;
     core.client := core.client this;
     core.xsrf := v |}.

(** The requests as [HHUpdater] passes them to the client. *)
Definition login_page_request (this : core.HHUpdater) : Request :=
  {| method := GET; url := core.login_url this; headers := ∅; data := ∅ |}.

Definition login_post_request (this : core.HHUpdater) (login password : option string)
    : Request :=
  {| method := POST; url := core.login_url this; headers := ∅;
     data := core.login_form this login password |}.

Definition touch_request (this : core.HHUpdater) (cv_id : string) : Request :=
  {| method := POST; url := core.touch_url this;
     headers := core.touch_headers this cv_id;
     data := core.touch_form cv_id |}.

(** The per-resume outcome lines of [update]: the identifier and whether
    the line reports success. *)
Definition item_of (l : main.line) : option (string * bool) :=
  match l with
  | main.Styled main.GREEN (main.Updated cv_id) => Some (cv_id, true)
  | main.Styled main.RED (main.NotUpdated cv_id) => Some (cv_id, false)
  | _ => None
  end.

Definition items (lines : list main.line) : list (string * bool) := omap item_of lines.

(** The event is a call of the client (not its closing). *)
Definition is_call (e : event) : bool :=
  match e with
  | ClientCall _ _ _ => true
  | ClientClose => false
  end.

(** The exchanges a call caused on the wire. *)
Definition wire_of (e : event) : list Exchange :=
  match e with
  | ClientCall _ wire _ => wire
  | ClientClose => []
  end.

(** The answer is final for the client: a fault, or a response that is not
    a redirect with a [Location]. *)
Definition direct (a : Res Response) : bool :=
  match a with
  | Ok response => negb (has_redirect_location response)
  | Raise _ => true
  end.

(** The lines the loop of [update] prints. *)
Definition loop_line (l : main.line) : bool :=
  match l with
  | main.Styled main.BLUE (main.Updating _) => true
  | main.Styled main.GREEN (main.Updated _) => true
  | main.Styled main.RED (main.NotUpdated _) => true
  | _ => false
  end.

(** The lines printed whether or not [verbose] is set: those that are not
    [print_info] lines and not the traceback. *)
Definition essential_line (l : main.line) : option main.line :=
  match l with
  | main.Styled main.BLUE _ => None
  | main.Plain _ => None
  | _ => Some l
  end.

Definition essential (lines : list main.line) : list main.line :=
  omap essential_line lines.

(** The globals with [verbose] set to [v]. *)
Definition with_verbose (g : main.Globals) (v : bool) : main.Globals :=
  {| main.verbose := v;
     main.base_url := main.base_url g;
     main.login := main.login g;
     main.password := main.password g |}.

(** The run of a method from the object [this] and the world [w] raised,
    left the object as it was and exchanged nothing with the site. *)
Definition offline `{Http} {A} (this : core.HHUpdater) (w : World)
    (run : Res A * core.Self) : Prop :=
  (exists e, fst run = Raise e)
  /\ fst (snd run) = this
  /\ net (snd (snd run)) = net w
  /\ Forall (fun e => wire_of e = []) (since (log w) (log (snd (snd run)))).

(** The world once the client has been closed. *)
Definition closed_world `{Http} (w : World) : World :=
  {| net := net w; log := log w ++ [ClientClose] |}.

(** The lines [update] prints before it logs in, and the traceback it adds
    after the report of an exception, both only when [verbose] is set. *)
Definition intro_lines (g : main.Globals) (cv_ids : list string) : list main.line :=
  if main.verbose g then
    [main.Styled main.BLUE (main.StartingUpdate (length cv_ids));
     main.Styled main.BLUE (main.UsingBaseUrl (main.base_url g));
     main.Styled main.BLUE (main.CvList cv_ids);
     main.Styled main.BLUE main.GettingXsrf;
     main.Styled main.BLUE main.Authorizing]
  else [].

Definition traceback_lines (g : main.Globals) : list main.line :=
  if main.verbose g then [main.Plain main.Traceback] else [].

End trace.

(** ** Scripted sites for concrete runs *)
Module mock.
Import httpx.

(** The follow-up request of a redirect: [GET] after 302 and 303 (and after
    301 on a [POST]), the form dropped with the method. *)
Definition redirect (request : Request) (response : Response) : Res Request :=
  match location response with
  | None => Raise (HTTPError "Invalid URL in location header")
  | Some target =>
      let code := status_code response in
      let to_get := (code =? 302) || (code =? 303) || (code =? 301) in
      Ok {| method := if to_get then GET else method request;
            url := target;
            headers := headers request;
            data := if to_get then ∅ else data request |}
  end.

(** A site without memory: it answers by the request alone. *)
Definition site (answer : Request -> Res Response) : Http :=
  {| Net := unit;
     transport := fun n r => (n, answer r);
     url_error := fun _ => None;
     build_redirect_request := redirect |}.

(** The cookie [_xsrf=t] of [hh.ru], for the path [path]. *)
Definition xsrf_cookie (t : string) (path : string) : Cookie :=
  {| cookie_name := "_xsrf"; cookie_value := Some t;
     cookie_domain := "hh.ru"; cookie_path := path |}.

Definition page (code : Z) (target : option string) (token : option string) : Response :=
  {| status_code := code;
     location := target;
     cookies := match token with
                | Some t => [xsrf_cookie t "/"]
                | None => []
                end |}.

(** A site at [https://hh.ru]: the login page sets the cookie [token];
    the login POST answers [login_code] (with [login_target] as its
    [Location]) and sets the cookie [rotated]; the touch POST answers
    [touch_code] of the resume; anything else is the front page. *)
Definition hh (token : option string) (login_code : Z) (login_target : option string)
    (rotated : option string) (touch_code : string -> Z) : Http :=
  site (fun r =>
    match method r with
    | GET =>
        if String.eqb (url r) "https://hh.ru/account/login?backurl=%2F"
        then Ok (page 200 None token)
        else Ok (page 200 None None)
    | POST =>
        if String.eqb (url r) "https://hh.ru/account/login?backurl=%2F"
        then Ok (page login_code login_target rotated)
        else if String.eqb (url r) "https://hh.ru/applicant/resumes/touch"
        then Ok (page (touch_code (default "" (mjoin (data r !! "resume")))) None None)
        else Ok (page 404 None None)
    end).

(** Login succeeds and every touch succeeds. *)
Definition plain : Http := hh (Some "tok") 200 None None (fun _ => 200).

(** Login succeeds; the touch of resume [c] is refused, the others succeed. *)
Definition partial : Http :=
  hh (Some "tok") 200 None None (fun cv_id => if String.eqb cv_id "c" then 403 else 200).

(** The login POST is answered with a redirect to the front page. *)
Definition redirecting : Http :=
  hh (Some "tok") 302 (Some "https://hh.ru/") None (fun _ => 200).

(** The login POST is answered 302 without a [Location]. *)
Definition bare_302 : Http := hh (Some "tok") 302 None None (fun _ => 200).

(** The login POST is refused. *)
Definition forbidding : Http := hh (Some "tok") 403 None None (fun _ => 200).


(** The login page sets no [_xsrf] cookie. *)
Definition tokenless : Http := hh None 200 None None (fun _ => 200).

(** The login page sets a token of three characters. *)
Definition short_token : Http := hh (Some "abc") 200 None None (fun _ => 200).

Definition fresh_world `{Http} (n : Net) : World := {| net := n; log := [] |}.

Definition fresh_proc `{Http} (n : Net) : main.Proc :=
  {| main.stdout := []; main.world := fresh_world n |}.

(** The object [HHUpdater("https://hh.ru/")] and the same with a token. *)
Definition updater : core.HHUpdater :=
  {| core.base_url := "https://hh.ru";
     core.client := {| default_headers := core.COMMON_HEADERS;
                       follow_redirects := true;
                       is_closed := false |};
     core.xsrf := None |}.

Definition updater_with (token : option string) : core.HHUpdater :=
  trace.with_xsrf updater token.

(** The options [--url https://hh.ru/ --login user@example.com --password secret]. *)
Definition globals : main.Globals :=
  main.main false "https://hh.ru/" "user@example.com" "secret".

Definition user : option string := Some "user@example.com".

Definition secret : option string := Some "secret".

(** Login succeeds; the touch of resume [b] times out, the others succeed. *)
Definition flaky : Http :=
  site (fun r =>
    match method r with
    | GET => Ok (page 200 None (Some "tok"))
    | POST =>
        if String.eqb (url r) "https://hh.ru/account/login?backurl=%2F"
        then Ok (page 200 None None)
        else if bool_decide (data r !! "resume" = Some (Some "b"))
        then Raise (HTTPError "timed out")
        else Ok (page 200 None None)
    end).

(** Login succeeds; the touch endpoint answers every touch POST with a
    redirect to the page of the resumes, which answers 200. *)
Definition touch_redirecting : Http :=
  site (fun r =>
    match method r with
    | GET => Ok (page 200 None (Some "tok"))
    | POST =>
        if String.eqb (url r) "https://hh.ru/account/login?backurl=%2F"
        then Ok (page 200 None None)
        else Ok (page 302 (Some "https://hh.ru/applicant/resumes") None)
    end).

(** The login page sets two [_xsrf] cookies, for two paths. *)
Definition conflicting : Http :=
  site (fun r =>
    Ok {| status_code := 200; location := None;
          cookies := [xsrf_cookie "tok" "/"; xsrf_cookie "other" "/account"] |}).

(** The options with an empty [--url]. *)
Definition no_url : main.Globals :=
  main.main true "" "user@example.com" "secret".

End mock.

(** * Proofs *)

Import httpx.

Ltac string_append :=
  repeat match goal with
    | |- context [String.append EmptyString ?x] =>
        change (String.append EmptyString x) with x
    | |- context [String.append (String ?a ?s) ?x] =>
        change (String.append (String a s) x) with (String a (String.append s x))
    | H : context [String.append EmptyString ?x] |- _ =>
        change (String.append EmptyString x) with x in H
    | H : context [String.append (String ?a ?s) ?x] |- _ =>
        change (String.append (String a s) x) with (String a (String.append s x)) in H
    end.

(** Evaluate the commands of [main] down to the calls of [core]. *)
Ltac run_main :=
  unfold main.update, main.check, try_except, main.with_HHUpdater, bind, when,
    main.print_info, main.print_error, main.print_success, main.echo, modify,
    main.echo_to, main.console_proc, main.console_block, main.echo_proc,
    main.call, raise, ret, core.__exit__, core.self, core.http, core.set_client,
    close; simpl.

(** Find a line in a list of lines built with [::] and [++]. *)
Ltac find_line :=
  repeat first
    [ apply list_elem_of_here
    | apply list_elem_of_further
    | apply elem_of_app; right ].

(** ** Strings *)

Section Strings.
Variable c : ascii.

Lemma rstrip_splits (s : string) :
  exists k, s = rstrip c s +:+ replicate_char k c.
Proof.
  induction s as [|a r [k IH]]; simpl.
  - exists 0%nat. reflexivity.
  - destruct (rstrip c r) as [|a' r'] eqn:E.
    + destruct (Ascii.eqb_spec a c) as [->|Hne].
      * exists (S k). simpl. string_append. congruence.
      * exists k. string_append. congruence.
    + exists k. string_append. congruence.
Qed.

Lemma rstrip_fixed (s : string) :
  last_char s <> Some c -> rstrip c s = s.
Proof.
  induction s as [|a r IH]; simpl; [reflexivity|].
  destruct r as [|b t].
  - simpl. intros Hne. destruct (Ascii.eqb_spec a c); congruence.
  - intros Hne. rewrite (IH Hne). reflexivity.
Qed.

Lemma rstrip_last (s : string) : last_char (rstrip c s) <> Some c.
Proof.
  induction s as [|a r IH]; simpl; [discriminate|].
  destruct (rstrip c r) as [|a' r'] eqn:E.
  - destruct (Ascii.eqb_spec a c); simpl; congruence.
  - exact IH.
Qed.

Lemma rstrip_idempotent (s : string) : rstrip c (rstrip c s) = rstrip c s.
Proof. apply rstrip_fixed, rstrip_last. Qed.

End Strings.

Lemma append_cancel (b x y : string) : b +:+ x = b +:+ y -> x = y.
Proof. induction b as [|a b IH]; string_append; [auto|]. intros [= Hb]. auto. Qed.

Lemma slice_to_prefix n : forall s, exists rest, s = slice_to n s +:+ rest.
Proof.
  induction n as [|m IHm]; induction s as [|a r [rest IHr]]; simpl.
  - exists "". reflexivity.
  - destruct (is_continuation a).
    + exists rest. string_append. congruence.
    + exists (String a r). reflexivity.
  - exists "". reflexivity.
  - destruct (is_continuation a).
    + exists rest. string_append. congruence.
    + destruct (IHm r) as [rest' Hr]. exists rest'. string_append. congruence.
Qed.

Lemma slice_to_len n : forall s, py_len (slice_to n s) = Nat.min n (py_len s).
Proof.
  induction n as [|m IHm]; induction s as [|a r IHr]; simpl; try reflexivity.
  - destruct (is_continuation a) eqn:Ha; simpl; rewrite ?Ha; auto.
  - destruct (is_continuation a) eqn:Ha; simpl; rewrite Ha; auto.
Qed.

Lemma slice_to_all n : forall s, (py_len s <= n)%nat -> slice_to n s = s.
Proof.
  induction n as [|m IHm]; induction s as [|a r IHr]; simpl; try reflexivity.
  - destruct (is_continuation a); [|lia]. intros Hl. rewrite (IHr Hl). reflexivity.
  - destruct (is_continuation a); intros Hl.
    + rewrite (IHr Hl). reflexivity.
    + rewrite IHm by lia. reflexivity.
Qed.

(** ** Lists *)

Lemma since_app {A} (l k : list A) : trace.since l (l ++ k) = k.
Proof. unfold trace.since. apply drop_app_length. Qed.

Lemma since_same {A} (l : list A) : trace.since l l = [].
Proof. unfold trace.since. apply drop_all. Qed.

Lemma count_app {A} (f : A -> bool) (l k : list A) :
  trace.count f (l ++ k) = (trace.count f l + trace.count f k)%nat.
Proof. induction l as [|x l IH]; simpl; [reflexivity|]. destruct (f x); lia. Qed.

Lemma count_le_length {A} (f : A -> bool) (l : list A) :
  (trace.count f l <= length l)%nat.
Proof. induction l as [|x l IH]; simpl; [lia|]. destruct (f x); lia. Qed.

(** ** C6: the stored base URL *)

(** C6.  For every base URL [b], the session stores [b] with all its
    trailing slashes removed: [b] is the stored value followed by slashes
    only, and the stored value does not end with a slash.  Stripping is
    idempotent: building a session from the stored value stores the same
    value.  Building with ["https://hh.ru/"] stores ["https://hh.ru"]. *)
Theorem base_url_stripped (b : string) :
  (exists u k,
     core.__init__ (Some b) = Ok u
     /\ b = core.base_url u +:+ replicate_char k "/"
     /\ last_char (core.base_url u) <> Some "/"%char
     /\ rstrip "/" (core.base_url u) = core.base_url u
     /\ core.__init__ (Some (core.base_url u)) = Ok u)
  /\ core.base_url <$> (match core.__init__ (Some "https://hh.ru/") with
                        | Ok u => Some u
                        | Raise _ => None
                        end) = Some "https://hh.ru".
Proof.
  split; [|reflexivity].
  destruct (rstrip_splits "/" b) as [k Hk].
  eexists. exists k. split; [reflexivity|]. simpl.
  split; [exact Hk|]. split; [apply rstrip_last|].
  rewrite rstrip_idempotent. split; reflexivity.
Qed.

(** ** The methods of [HHUpdater], step by step *)

Section CoreFacts.
Context `{Http}.

Lemma request_logs c r w a w' :
  request c r w = (a, w') ->
  exists wire, log w' = log w ++ [ClientCall r wire a].
Proof.
  unfold request. destruct (build_request c r) as [on_wire|e].
  - destruct (is_closed c).
    + intros [= <- <-]. eexists. reflexivity.
    + destruct (send_handling_redirects _ _ _ _) as [[a0 wire] n'].
      intros [= <- <-]. eexists. reflexivity.
  - intros [= <- <-]. eexists. reflexivity.
Qed.

Lemma get_xsrf_unfold this w :
  core.get_xsrf (this, w) =
  match get (core.client this) (core.login_url this) w with
  | (Ok response, w') =>
      match Cookies_get "_xsrf" (cookies response) with
      | Ok value => (Ok value, (trace.with_xsrf this value, w'))
      | Raise e => (Raise e, (this, w'))
      end
  | (Raise e, w') => (Raise e, (this, w'))
  end.
Proof.
  unfold core.get_xsrf, bind, core.self, core.http, core.eval, core.set_xsrf,
    modify, ret; simpl.
  destruct (get _ _ w) as [[response|e] w']; [|reflexivity].
  destruct (Cookies_get "_xsrf" (cookies response)); reflexivity.
Qed.

Lemma auth_unfold_cached login password this w :
  truthy (core.xsrf this) = true ->
  core.auth login password (this, w) =
  match post (core.client this) (core.login_url this)
             (core.login_form this login password) ∅ w with
  | (Ok response, w') => (Ok (status_code response =? 200), (this, w'))
  | (Raise e, w') => (Raise e, (this, w'))
  end.
Proof.
  intros Ht.
  unfold core.auth, bind, core.self, core.http, when, ret; simpl.
  rewrite Ht; simpl.
  destruct (post _ _ _ _ w) as [[response|e] w']; reflexivity.
Qed.

Lemma auth_unfold_fetch login password this w :
  truthy (core.xsrf this) = false ->
  core.auth login password (this, w) =
  match core.get_xsrf (this, w) with
  | (Ok _, (this1, w1)) =>
      match post (core.client this1) (core.login_url this1)
                 (core.login_form this1 login password) ∅ w1 with
      | (Ok response, w') => (Ok (status_code response =? 200), (this1, w'))
      | (Raise e, w') => (Raise e, (this1, w'))
      end
  | (Raise e, s) => (Raise e, s)
  end.
Proof.
  intros Ht.
  unfold core.auth, bind at 1 2, core.self at 1, when, ret; simpl.
  rewrite Ht; simpl. unfold bind at 1 2.
  destruct (core.get_xsrf (this, w)) as [[tok|e] [this1 w1]]; [|reflexivity].
  unfold bind, core.self, core.http, ret; simpl.
  destruct (post _ _ _ _ w1) as [[response|e] w']; reflexivity.
Qed.

Lemma update_cv_unfold cv_id this w :
  core.update_cv cv_id (this, w) =
  if truthy (core.xsrf this) then
    match post (core.client this) (core.touch_url this)
               (core.touch_form cv_id) (core.touch_headers this cv_id) w with
    | (Ok response, w') => (Ok (status_code response =? 200), (this, w'))
    | (Raise e, w') => (Raise e, (this, w'))
    end
  else (Ok false, (this, w)).
Proof.
  unfold core.update_cv, bind, core.self, core.http, ret; simpl.
  destruct (truthy (core.xsrf this)); simpl; [|reflexivity].
  destruct (post _ _ _ _ w) as [[response|e] w']; reflexivity.
Qed.

(** ** C2: [update_cv] without a token *)

(** C2.  In every session in which no CSRF token is cached ([xsrf] is
    [None] or empty), [update_cv] returns false and leaves the session and
    the world as they were: no call of the HTTP client is made, so no
    request goes out. *)
Theorem update_cv_without_token cv_id this w :
  truthy (core.xsrf this) = false ->
  core.update_cv cv_id (this, w) = (Ok false, (this, w))
  /\ trace.since (log w) (log (snd (snd (core.update_cv cv_id (this, w))))) = [].
Proof.
  intros Ht. rewrite update_cv_unfold, Ht. split; [reflexivity|].
  simpl. apply since_same.
Qed.

(** ** C3: the implicit token fetch of [auth] *)

(** C3.  In a session with no cached token, [auth] first performs the
    token fetch of [get_xsrf], once: the fetch is one call of the client,
    the GET of the login page.  When the fetch returns, the login POST
    follows, from the session as the fetch left it, and these two are all
    the calls; when the fetch raises, [auth] raises the same exception and
    nothing else is called.  With a cached token the only call is the login
    POST: no fetch is made. *)
Theorem auth_token_fetch login password this w :
  let run := core.auth login password (this, w) in
  let calls := trace.requests (trace.since (log w) (log (snd (snd run)))) in
  if truthy (core.xsrf this) then
    calls = [trace.login_post_request this login password]
  else
    let fetch := core.get_xsrf (this, w) in
    trace.requests (trace.since (log w) (log (snd (snd fetch))))
    = [trace.login_page_request this]
    /\ match fst fetch with
       | Ok _ =>
           fst (snd run) = fst (snd fetch)
           /\ calls = [trace.login_page_request this;
                       trace.login_post_request (fst (snd fetch)) login password]
       | Raise e =>
           fst run = Raise e
           /\ calls = [trace.login_page_request this]
       end.
Proof.
  cbv zeta. destruct (truthy (core.xsrf this)) eqn:Ht.
  - rewrite (auth_unfold_cached _ _ _ _ Ht).
    destruct (post _ _ _ _ w) as [a w'] eqn:E.
    destruct (request_logs _ _ _ _ _ E) as [wire Hlog].
    destruct a; simpl; rewrite Hlog, since_app; reflexivity.
  - rewrite (auth_unfold_fetch _ _ _ _ Ht), get_xsrf_unfold.
    destruct (get _ _ w) as [a w1] eqn:E.
    destruct (request_logs _ _ _ _ _ E) as [wire Hlog].
    destruct a as [response|e].
    + destruct (Cookies_get "_xsrf" (cookies response)) as [value|e]; simpl.
      * rewrite Hlog, since_app. split; [reflexivity|].
        destruct (post _ _ _ _ w1) as [a' w'] eqn:E'.
        destruct (request_logs _ _ _ _ _ E') as [wire' Hlog'].
        destruct a'; simpl; rewrite Hlog', Hlog, <- app_assoc, since_app;
          split; reflexivity.
      * rewrite Hlog, since_app. repeat split.
    + simpl. rewrite Hlog, since_app. repeat split.
Qed.

(** ** C7: [auth] does not touch the session *)


(** ** C9: the empty token *)

(** C9.  A session whose token is the empty string behaves like one with no
    token: [auth] gives the same result and the same world as from the
    session without a token, its first call is the token fetch, and
    [update_cv] returns false without changing anything. *)
Theorem empty_token_is_no_token b c login password cv_id w :
  let empty := {| core.base_url := b; core.client := c; core.xsrf := Some "" |} in
  let absent := {| core.base_url := b; core.client := c; core.xsrf := None |} in
  let run := core.auth login password (empty, w) in
  fst run = fst (core.auth login password (absent, w))
  /\ snd (snd run) = snd (snd (core.auth login password (absent, w)))
  /\ (exists rest,
        trace.requests (trace.since (log w) (log (snd (snd run))))
        = trace.login_page_request absent :: rest)
  /\ core.update_cv cv_id (empty, w) = (Ok false, (empty, w)).
Proof.
  cbv zeta. rewrite !auth_unfold_fetch by reflexivity.
  rewrite !get_xsrf_unfold. simpl.
  change (core.login_url {| core.base_url := b; core.client := c; core.xsrf := Some "" |})
    with (core.login_url {| core.base_url := b; core.client := c; core.xsrf := None |}).
  destruct (get c _ w) as [a w1] eqn:E.
  destruct (request_logs _ _ _ _ _ E) as [wire Hlog].
  destruct a as [response|e];
    [destruct (Cookies_get "_xsrf" (cookies response)) as [value|e]|].
  - unfold trace.with_xsrf; simpl.
    destruct (post _ _ _ _ w1) as [a' w'] eqn:E'.
    destruct (request_logs _ _ _ _ _ E') as [wire' Hlog'].
    split; [|split; [|split]].
    + destruct a'; reflexivity.
    + destruct a'; reflexivity.
    + eexists. destruct a'; simpl; rewrite Hlog', Hlog, <- app_assoc, since_app; reflexivity.
    + rewrite update_cv_unfold. reflexivity.
  - simpl. split; [reflexivity|]. split; [reflexivity|]. split.
    + eexists. rewrite Hlog, since_app. reflexivity.
    + rewrite update_cv_unfold. reflexivity.
  - simpl. split; [reflexivity|]. split; [reflexivity|]. split.
    + eexists. rewrite Hlog, since_app. reflexivity.
    + rewrite update_cv_unfold. reflexivity.
Qed.

(** ** C10: [auth] when the fetch finds no token *)

(** C10.  When the token fetch inside [auth] returns no token, [auth] goes
    on: it sends the login POST with the empty string in the [_xsrf] field,
    and its result is that of the POST: true or false as the status of the
    response is 200 or not, or the exception of the POST. *)
Theorem auth_posts_without_token login password this w tok this1 w1 :
  truthy (core.xsrf this) = false ->
  core.get_xsrf (this, w) = (Ok tok, (this1, w1)) ->
  truthy tok = false ->
  let post_request := trace.login_post_request this1 login password in
  exists wire answer w',
    core.auth login password (this, w)
    = (match answer with
       | Ok response => Ok (status_code response =? 200)
       | Raise e => Raise e
       end, (this1, w'))
    /\ log w' = log w1 ++ [ClientCall post_request wire answer]
    /\ data post_request !! "_xsrf" = Some (Some "").
Proof.
  intros Ht Hget Htok. cbv zeta.
  rewrite (auth_unfold_fetch _ _ _ _ Ht), Hget.
  rewrite get_xsrf_unfold in Hget.
  destruct (get _ _ w) as [[response|e] w0]; [|discriminate].
  destruct (Cookies_get "_xsrf" (cookies response)) as [value|e]; [|discriminate].
  injection Hget as <- <- <-.
  destruct (post _ _ _ _ w0) as [a w'] eqn:E.
  destruct (request_logs _ _ _ _ _ E) as [wire Hlog].
  exists wire, a, w'. split; [destruct a; reflexivity|].
  split; [exact Hlog|].
  simpl. unfold core.login_form.
  rewrite !lookup_insert_ne by discriminate. rewrite lookup_insert_eq.
  simpl. unfold py_or. destruct value as [s|]; [|reflexivity].
  simpl in Htok. rewrite Htok. reflexivity.
Qed.

End CoreFacts.

Lemma update_cv_without_token_witness :
  let w := mock.fresh_world (H := mock.plain) tt in
  truthy (core.xsrf mock.updater) = false
  /\ core.update_cv (H := mock.plain) "123" (mock.updater, w)
     = (Ok false, (mock.updater, w)).
Proof.
  split; [reflexivity|].
  exact (proj1 (update_cv_without_token (H := mock.plain) "123" mock.updater
                  (mock.fresh_world (H := mock.plain) tt) eq_refl)).
Defined.


Lemma auth_posts_without_token_witness :
  let w := mock.fresh_world (H := mock.tokenless) tt in
  let fetched := core.get_xsrf (H := mock.tokenless) (mock.updater, w) in
  let this1 := fst (snd fetched) in
  let w1 := snd (snd fetched) in
  let post_request := trace.login_post_request this1 mock.user mock.secret in
  truthy (core.xsrf mock.updater) = false
  /\ fetched = (Ok None, (this1, w1))
  /\ truthy None = false
  /\ exists wire answer w',
       core.auth (H := mock.tokenless) mock.user mock.secret (mock.updater, w)
       = (match answer with
          | Ok response => Ok (status_code response =? 200)
          | Raise e => Raise e
          end, (this1, w'))
       /\ log w' = log w1 ++ [ClientCall post_request wire answer]
       /\ data post_request !! "_xsrf" = Some (Some "").
Proof.
  cbv zeta. split; [reflexivity|]. split; [vm_compute; reflexivity|].
  split; [reflexivity|].
  apply (auth_posts_without_token (H := mock.tokenless) mock.user mock.secret
           mock.updater (mock.fresh_world (H := mock.tokenless) tt) None);
    [reflexivity | vm_compute; reflexivity | reflexivity].
Defined.

(** ** C1: what [auth] returns *)

Section Redirects.
Context `{Http}.

(** A response handed back by the client is the last one it received. *)
Lemma redirects_last_exchange sends follow : forall req n response wire n',
  send_handling_redirects sends follow req n = (Ok response, wire, n') ->
  exists sent, last wire = Some (sent, Ok response).
Proof.
  induction sends as [|k IH]; intros req n response wire n'; simpl; [discriminate|].
  destruct (transport n req) as [n1 [r1|e]]; [|discriminate].
  destruct (has_redirect_location r1).
  - destruct (build_redirect_request req r1) as [next|e]; [|discriminate].
    destruct follow.
    + destruct (send_handling_redirects k true next n1) as [[a wire'] n2] eqn:E.
      intros [= -> <- <-].
      destruct (IH _ _ _ _ _ E) as [sent Hs]. exists sent.
      destruct wire'; [discriminate|]. exact Hs.
    + intros [= <- <- <-]. eexists. reflexivity.
  - intros [= <- <- <-]. eexists. reflexivity.
Qed.

(** A first response that is not a redirect with a [Location] is handed
    back as it is. *)
Lemma redirects_direct_answer sends follow req n answer sent response wire n' :
  send_handling_redirects sends follow req n = (answer, (sent, Ok response) :: wire, n') ->
  has_redirect_location response = false ->
  answer = Ok response.
Proof.
  destruct sends as [|k]; simpl; [discriminate|].
  destruct (transport n req) as [n1 [r1|e]]; [|intros; simplify_eq].
  destruct (has_redirect_location r1) eqn:Hr; [|intros; simplify_eq; reflexivity].
  destruct (build_redirect_request req r1) as [next|e]; [|intros; simplify_eq; congruence].
  destruct follow; [|intros; simplify_eq; congruence].
  destruct (send_handling_redirects k true next n1) as [[a wire'] n2].
  intros; simplify_eq; congruence.
Qed.

Lemma request_answer c r w response w' :
  request c r w = (Ok response, w') ->
  exists wire sent,
    log w' = log w ++ [ClientCall r wire (Ok response)]
    /\ last wire = Some (sent, Ok response).
Proof.
  unfold request. destruct (build_request c r) as [on_wire|e]; [|discriminate].
  destruct (is_closed c); [discriminate|].
  destruct (send_handling_redirects _ _ _ _) as [[a wire] n'] eqn:E.
  intros [= -> <-].
  destruct (redirects_last_exchange _ _ _ _ _ _ _ E) as [sent Hs].
  exists wire, sent. split; [reflexivity|exact Hs].
Qed.

Lemma request_direct c r w answer w' sent response wire pre :
  request c r w = (answer, w') ->
  log w' = pre ++ [ClientCall r ((sent, Ok response) :: wire) answer] ->
  has_redirect_location response = false ->
  answer = Ok response.
Proof.
  unfold request. destruct (build_request c r) as [on_wire|e].
  - destruct (is_closed c).
    + intros [= <- <-]. simpl. intros Hl. apply app_inj_tail in Hl as [_ Hl]. discriminate.
    + destruct (send_handling_redirects _ _ _ _) as [[a wire0] n'] eqn:E.
      intros [= <- <-]. simpl. intros Hl Hr.
      apply app_inj_tail in Hl as [_ Hl]. injection Hl as ->.
      exact (redirects_direct_answer _ _ _ _ _ _ _ _ _ E Hr).
  - intros [= <- <-]. simpl. intros Hl. apply app_inj_tail in Hl as [_ Hl]. discriminate.
Qed.

Lemma error_status_not_redirect response :
  400 <= status_code response < 600 -> has_redirect_location response = false.
Proof.
  intros Hs. unfold has_redirect_location, is_redirect_status.
  repeat match goal with |- context [(?a =? ?b)] => destruct (Z.eqb_spec a b); [lia|] end.
  reflexivity.
Qed.

(** The runs of [auth]: either its last call is the login POST, made from
    the session it ends with, after the fetch if there was no token, and
    the result is that of the POST; or there was no token and the fetch
    raised, after its one call. *)
Lemma auth_cases login password this w :
  let run := core.auth login password (this, w) in
  let this' := fst (snd run) in
  (exists pre w0 answer,
     request (core.client this') (trace.login_post_request this' login password) w0
     = (answer, snd (snd run))
     /\ log w0 = log w ++ pre
     /\ trace.requests pre
        = (if truthy (core.xsrf this) then [] else [trace.login_page_request this])
     /\ fst run = match answer with
                  | Ok response => Ok (status_code response =? 200)
                  | Raise e => Raise e
                  end)
  \/ (exists wire answer e,
        trace.since (log w) (log (snd (snd run)))
        = [ClientCall (trace.login_page_request this) wire answer]
        /\ fst run = Raise e).
Proof.
  cbv zeta. destruct (truthy (core.xsrf this)) eqn:Ht.
  - left. rewrite (auth_unfold_cached _ _ _ _ Ht). unfold post.
    destruct (request _ _ w) as [a w'] eqn:E.
    exists [], w, a. rewrite app_nil_r.
    destruct a; simpl; repeat split; exact E.
  - rewrite (auth_unfold_fetch _ _ _ _ Ht), get_xsrf_unfold. unfold get.
    destruct (request _ _ w) as [[response|e] w1] eqn:E.
    + destruct (request_logs _ _ _ _ _ E) as [wire Hlog].
      destruct (Cookies_get "_xsrf" (cookies response)) as [value|e].
      * left. unfold post.
        destruct (request _ _ w1) as [a w'] eqn:E'.
        eexists _, w1, a. split; [destruct a; simpl; exact E'|].
        split; [exact Hlog|]. split; [reflexivity|]. destruct a; reflexivity.
      * right. simpl. rewrite Hlog, since_app. eauto.
    + right. destruct (request_logs _ _ _ _ _ E) as [wire Hlog].
      simpl. rewrite Hlog, since_app. eauto.
Qed.

(** C1, as amended.  [auth] returns true if and only if its last call of
    the client is the login POST and the response the client hands back for
    it has status exactly 200; with redirects followed, that is the last
    response received on the wire, not necessarily the answer of the login
    endpoint itself.  (Before the login POST there is only the token fetch,
    when there was no token.)  When the login endpoint answers the login
    POST with a response that is not a redirect carrying a [Location] (any
    4xx or 5xx, or a 3xx without [Location]), that response decides: [auth]
    returns true exactly when its status is 200, so false on every 4xx and
    5xx. *)
Theorem auth_true_iff_final_200 login password this w :
  let run := core.auth login password (this, w) in
  let post_request := trace.login_post_request (fst (snd run)) login password in
  let evs := trace.since (log w) (log (snd (snd run))) in
  (fst run = Ok true <->
     exists pre wire sent response,
       evs = pre ++ [ClientCall post_request wire (Ok response)]
       /\ trace.requests pre
          = (if truthy (core.xsrf this) then [] else [trace.login_page_request this])
       /\ last wire = Some (sent, Ok response)
       /\ status_code response = 200)
  /\ (forall pre sent response wire answer,
        evs = pre ++ [ClientCall post_request ((sent, Ok response) :: wire) answer] ->
        (has_redirect_location response = false ->
         fst run = Ok (status_code response =? 200))
        /\ (400 <= status_code response < 600 -> fst run = Ok false)).
Proof.
  cbv zeta.
  destruct (auth_cases login password this w)
    as [(pre & w0 & answer & Hreq & Hpre & Hcalls & Hres)
       |(wire & answer & e & Hevs & Hres)].
  - destruct (request_logs _ _ _ _ _ Hreq) as [wire Hlog].
    assert (trace.since (log w) (log (snd (snd (core.auth login password (this, w)))))
            = pre ++ [ClientCall
                        (trace.login_post_request
                           (fst (snd (core.auth login password (this, w))))
                           login password) wire answer]) as Hevs.
    { rewrite Hlog, Hpre, <- app_assoc, since_app. reflexivity. }
    rewrite Hres, Hevs. split; [split|].
    + destruct answer as [response|e]; [|discriminate].
      intros [= Hs]. apply Z.eqb_eq in Hs.
      destruct (request_answer _ _ _ _ _ Hreq) as (wire' & sent & Hlog' & Hlast).
      rewrite Hlog in Hlog'. apply app_inj_tail in Hlog' as [_ [= ->]].
      exists pre, wire', sent, response. auto.
    + intros (pre' & wire' & sent & response & Heq & _ & _ & Hs).
      apply app_inj_tail in Heq as [_ [= _ ->]]. rewrite Hs. reflexivity.
    + intros pre' sent response wire' answer' Heq.
      apply app_inj_tail in Heq as [_ [= -> <-]].
      assert (has_redirect_location response = false -> answer = Ok response) as Hdirect.
      { intros Hr. exact (request_direct _ _ _ _ _ _ _ _ _ Hreq Hlog Hr). }
      split.
      * intros Hr. rewrite (Hdirect Hr). reflexivity.
      * intros Hs. rewrite (Hdirect (error_status_not_redirect _ Hs)).
        f_equal. apply Z.eqb_neq. lia.
  - rewrite Hres, Hevs. split; [split; [discriminate|]|].
    + intros (pre' & wire' & sent & response & Heq & _).
      apply (app_inj_tail []) in Heq as [_ Heq]. discriminate Heq.
    + intros pre' sent response wire' answer' Heq.
      apply (app_inj_tail []) in Heq as [_ Heq]. discriminate Heq.
Qed.

End Redirects.

(** C1 as stated fails: the login endpoint answers the login POST with 302
    and a [Location]; the client follows it to the front page, which
    answers 200, and [auth] returns true. *)
Lemma auth_true_on_redirect :
  let this := mock.updater_with (Some "tok") in
  let run := core.auth (H := mock.redirecting) mock.user mock.secret
               (this, mock.fresh_world (H := mock.redirecting) tt) in
  fst run = Ok true
  /\ exists sent wire answer,
       last (log (snd (snd run)))
       = Some (ClientCall (trace.login_post_request this mock.user mock.secret)
                 ((sent, Ok (mock.page 302 (Some "https://hh.ru/") None)) :: wire)
                 answer).
Proof.
  cbv zeta. split; [vm_compute; reflexivity|].
  do 3 eexists. vm_compute. reflexivity.
Qed.

Lemma auth_true_iff_final_200_witness :
  let this := mock.updater_with (Some "tok") in
  let run := core.auth (H := mock.forbidding) mock.user mock.secret
               (this, mock.fresh_world (H := mock.forbidding) tt) in
  400 <= status_code (mock.page 403 None None) < 600
  /\ fst run = Ok false.
Proof.
  cbv zeta. split; [simpl; lia|].
  refine (proj2 (proj2 (auth_true_iff_final_200 (H := mock.forbidding)
                          mock.user mock.secret (mock.updater_with (Some "tok"))
                          (mock.fresh_world (H := mock.forbidding) tt))
                   [] _ (mock.page 403 None None) _ _ _) _).
  - reflexivity.
  - simpl. lia.
Defined.

(** ** The commands *)

Section Commands.
Context `{Http}.

(** [auth] only adds to the log, and only calls of the login URL. *)
Lemma auth_log login password this w :
  exists evs,
    log (snd (snd (core.auth login password (this, w)))) = log w ++ evs
    /\ Forall (fun r => url r = core.login_url this) (trace.requests evs).
Proof.
  destruct (truthy (core.xsrf this)) eqn:Ht.
  - rewrite (auth_unfold_cached _ _ _ _ Ht).
    destruct (post _ _ _ _ w) as [a w'] eqn:E.
    destruct (request_logs _ _ _ _ _ E) as [wire Hlog].
    eexists. split; [destruct a; exact Hlog|].
    repeat constructor.
  - rewrite (auth_unfold_fetch _ _ _ _ Ht), get_xsrf_unfold.
    destruct (get _ _ w) as [a w1] eqn:E.
    destruct (request_logs _ _ _ _ _ E) as [wire Hlog].
    destruct a as [response|e];
      [destruct (Cookies_get "_xsrf" (cookies response)) as [value|e]|].
    + destruct (post _ _ _ _ w1) as [a' w'] eqn:E'.
      destruct (request_logs _ _ _ _ _ E') as [wire' Hlog'].
      eexists. split.
      * destruct a'; simpl; rewrite Hlog', Hlog, <- app_assoc; reflexivity.
      * repeat constructor.
    + eexists. split; [exact Hlog|]. repeat constructor.
    + eexists. split; [exact Hlog|]. repeat constructor.
Qed.

Lemma login_is_not_touch this : core.login_url this <> core.touch_url this.
Proof.
  unfold core.login_url, core.touch_url. intros Heq.
  apply append_cancel in Heq. discriminate.
Qed.

(** C4.  In [update], when [auth] returns false the command ends with
    [typer.Exit(1)], exit status 1; after the calls of [auth] the client is
    only closed, so no call goes to the touch URL, and no per-resume outcome
    line is printed: [update_cv] is not called for any identifier. *)
Theorem update_stops_on_auth_failure g cv_ids p u u' w' :
  core.__init__ (main.base_url g) = Ok u ->
  core.auth (main.login g) (main.password g) (u, main.world p) = (Ok false, (u', w')) ->
  let run := main.update g cv_ids p in
  let lines := trace.since (main.stdout p) (main.stdout (snd run)) in
  let evs := trace.since (log (main.world p)) (log (main.world (snd run))) in
  fst run = Raise (Exit 1)
  /\ main.exit_status (fst run) = 1
  /\ evs = trace.since (log (main.world p)) (log w') ++ [ClientClose]
  /\ Forall (fun r => url r <> core.touch_url u) (trace.requests evs)
  /\ trace.items lines = []
  /\ main.Styled main.RED main.AuthError ∈ lines.
Proof.
  intros Hinit Hauth. cbv zeta.
  destruct (auth_log (main.login g) (main.password g) u (main.world p)) as (evs & Hlog & Hurls).
  rewrite Hauth in Hlog. simpl in Hlog.
  assert (Forall (fun r => url r <> core.touch_url u) (trace.requests (evs ++ [ClientClose]))) as Hnot.
  { unfold trace.requests. rewrite omap_app, app_nil_r.
    eapply Forall_impl; [exact Hurls|]. simpl. intros r ->. apply login_is_not_touch. }
  run_main. rewrite Hinit. simpl.
  destruct (main.verbose g); simpl; rewrite Hauth; simpl;
    rewrite Hlog, <- !app_assoc, !since_app; simpl;
    repeat (split; [first [reflexivity | assumption | find_line]|]); find_line.
Qed.

(** One call of [update_cv]: the object is unchanged, and the log grows by
    the touch call, or by nothing when there is no token. *)
Lemma update_cv_run cv_id u w :
  exists r w' evs,
    core.update_cv cv_id (u, w) = (r, (u, w'))
    /\ log w' = log w ++ evs
    /\ (if truthy (core.xsrf u)
        then exists wire answer,
               evs = [ClientCall (trace.touch_request u cv_id) wire answer]
               /\ r = match answer with
                      | Ok response => Ok (status_code response =? 200)
                      | Raise e => Raise e
                      end
        else evs = [] /\ r = Ok false).
Proof.
  rewrite update_cv_unfold. destruct (truthy (core.xsrf u)).
  - destruct (post _ _ _ _ w) as [a w'] eqn:E.
    destruct (request_logs _ _ _ _ _ E) as [wire Hlog].
    exists (match a with
            | Ok response => Ok (status_code response =? 200)
            | Raise e => Raise e
            end), w'.
    eexists. split; [destruct a; reflexivity|]. split; [exact Hlog|]. eauto.
  - exists (Ok false), w, []. rewrite app_nil_r. auto.
Qed.

(** One turn of the loop. *)
Lemma update_each_cons verbose cv_id rest n u p :
  main.update_each verbose (cv_id :: rest) n (u, p) =
  let p0 := if verbose
            then main.echo_proc (main.Styled main.BLUE (main.Updating cv_id)) p
            else p in
  match core.update_cv cv_id (u, main.world p0) with
  | (Ok ok, (u', w')) =>
      main.update_each verbose rest (if ok then S n else n)
        (u', main.echo_proc
               (if ok then main.Styled main.GREEN (main.Updated cv_id)
                else main.Styled main.RED (main.NotUpdated cv_id))
               {| main.stdout := main.stdout p0; main.world := w' |})
  | (Raise e, (u', w')) =>
      (Raise e, (u', {| main.stdout := main.stdout p0; main.world := w' |}))
  end.
Proof.
  cbn [main.update_each]. destruct verbose; run_main;
    destruct (core.update_cv cv_id _) as [[[|]|e] [u' w']]; reflexivity.
Qed.

(** The whole loop: when no call raises, it ends with the number of calls
    answered 200 added to the count, having printed one outcome line per
    identifier, in order. *)
Lemma update_each_run verbose cv_ids : forall n u p,
  exists r p' evs lines,
    main.update_each verbose cv_ids n (u, p) = (r, (u, p'))
    /\ log (main.world p') = log (main.world p) ++ evs
    /\ main.stdout p' = main.stdout p ++ lines
    /\ (trace.calm evs ->
         r = Ok (n + trace.count trace.answered_200 evs)%nat
         /\ (trace.items lines).*1 = cv_ids
         /\ trace.count snd (trace.items lines) = trace.count trace.answered_200 evs
         /\ (if truthy (core.xsrf u)
             then trace.requests evs = map (trace.touch_request u) cv_ids
             else evs = [])).
Proof.
  induction cv_ids as [|cv_id rest IH]; intros n u p.
  - exists (Ok n), p, [], []. simpl. rewrite !app_nil_r, Nat.add_0_r.
    destruct (truthy (core.xsrf u)); auto 10.
  - rewrite update_each_cons. cbv zeta.
    set (p0 := if verbose then _ else p).
    assert (exists pre, main.stdout p0 = main.stdout p ++ pre /\ trace.items pre = []
                        /\ main.world p0 = main.world p) as (pre & Hpre & Hitems & Hw).
    { subst p0. destruct verbose; simpl.
      - eexists. split; [reflexivity|]. split; reflexivity.
      - exists []. rewrite app_nil_r. auto. }
    rewrite Hw.
    destruct (update_cv_run cv_id u (main.world p)) as (r1 & w1 & evs1 & Hrun & Hlog1 & Hcase).
    rewrite Hrun. destruct r1 as [ok|e].
    + match goal with |- context [main.update_each verbose rest ?m (u, ?q)] =>
        destruct (IH m u q) as (r & p' & evs & lines & Heach & Hlog & Hout & Hcalm)
      end.
      simpl in Hlog, Hout.
      exists r, p', (evs1 ++ evs).
      exists (pre ++ [if ok then main.Styled main.GREEN (main.Updated cv_id)
                      else main.Styled main.RED (main.NotUpdated cv_id)] ++ lines).
      split; [exact Heach|].
      split; [rewrite Hlog, Hlog1, app_assoc; reflexivity|].
      split; [rewrite Hout, Hpre, <- !app_assoc; reflexivity|].
      intros Hc. apply Forall_app in Hc as [Hc1 Hc2].
      destruct (Hcalm Hc2) as (Hr & Hids & Hcount & Hreqs).
      unfold trace.items, trace.requests in *.
      rewrite !omap_app, Hitems, !fmap_app, !count_app. simpl app.
      destruct (truthy (core.xsrf u)).
      * destruct Hcase as (wire & answer & -> & Hans).
        destruct answer as [response|e]; [|inversion Hc1; discriminate].
        injection Hans as ->. simpl.
        destruct (status_code response =? 200); simpl;
          rewrite Hr, Hids, Hcount, Hreqs; repeat split; try reflexivity; f_equal; lia.
      * destruct Hcase as [-> [= ->]]. subst evs. simpl.
        rewrite Hr, Hids, Hcount. simpl. repeat split; try reflexivity; f_equal; lia.
    + eexists _, _, evs1, pre. split; [reflexivity|]. simpl.
      split; [exact Hlog1|]. split; [exact Hpre|].
      intros Hc. destruct (truthy (core.xsrf u)).
      * destruct Hcase as (wire & answer & -> & Hans).
        destruct answer as [response|e']; [discriminate|].
        inversion Hc; discriminate.
      * destruct Hcase as [_ [=]].
Qed.

(** C5, as amended.  In a run of [update] in which [auth] returned true and
    no call of the client raised afterwards: one outcome line is printed per
    identifier, in input order, whatever the earlier outcomes; with a token
    cached the touch calls are exactly those of the identifiers, in order
    (without one, none is sent); the number of success lines, and the count
    of the summary line, is the number of touch calls for which the client
    handed back a response with status 200 (the last response of the chain
    when redirects were followed); and the command returns (exit status 0)
    if and only if that number is the number of identifiers, and ends with
    [typer.Exit(1)] otherwise. *)
Theorem update_batch g cv_ids p u u1 w1 :
  core.__init__ (main.base_url g) = Ok u ->
  core.auth (main.login g) (main.password g) (u, main.world p) = (Ok true, (u1, w1)) ->
  let run := main.update g cv_ids p in
  let lines := trace.since (main.stdout p) (main.stdout (snd run)) in
  let evs := trace.since (log w1) (log (main.world (snd run))) in
  trace.calm evs ->
  let k := trace.count trace.answered_200 evs in
  (trace.items lines).*1 = cv_ids
  /\ trace.count snd (trace.items lines) = k
  /\ main.Styled main.GREEN (main.Summary k (length cv_ids)) ∈ lines
  /\ (fst run = Ok tt <-> k = length cv_ids)
  /\ (main.exit_status (fst run) = 0 <-> k = length cv_ids)
  /\ (fst run = Ok tt \/ fst run = Raise (Exit 1))
  /\ trace.requests evs
     = if truthy (core.xsrf u1) then map (trace.touch_request u1) cv_ids else [].
Proof.
  intros Hinit Hauth. cbv zeta.
  run_main. rewrite Hinit. simpl.
  destruct (main.verbose g) eqn:Hv; simpl; rewrite Hauth; simpl.
  all: match goal with |- context [main.update_each ?v ?ids ?m (?x, ?q)] =>
         destruct (update_each_run v ids m x q)
           as (r & p' & evs & lines & Heach & Hlog & Hout & Hcalm)
       end; rewrite Heach; simpl in Hlog, Hout.
  all: destruct r as [a|e]; simpl;
    [destruct (a <? length cv_ids)%nat eqn:Hlt; simpl|];
    rewrite Hlog, Hout, <- !app_assoc, !since_app;
    intros Hc; apply Forall_app in Hc as [Hc _];
    destruct (Hcalm Hc) as (Hr & Hids & Hcount & Hreqs); [| |discriminate].
  all: injection Hr as ->; simpl in Hlt.
  all: unfold trace.items, trace.requests in *;
    rewrite ?omap_app, ?fmap_app, ?count_app; simpl;
    rewrite ?app_nil_r, ?Nat.add_0_r, Hids, Hcount.
  all: pose proof (count_le_length snd (omap trace.item_of lines)) as Hle;
    rewrite <- (length_fmap fst), Hids, Hcount in Hle.
  all: apply Nat.ltb_lt in Hlt || apply Nat.ltb_ge in Hlt.
  all: split; [reflexivity|]; split; [reflexivity|].
  all: split; [find_line|].
  all: split; [split; intros; first [reflexivity | discriminate | lia]|].
  all: split; [split; intros; first [reflexivity | discriminate | lia]|].
  all: split; [auto|].
  all: destruct (truthy (core.xsrf u1)); [exact Hreqs|subst evs; reflexivity].
Qed.

(** C8, as amended.  [check] returns (exit status 0) if and only if
    [get_xsrf] returned a token that is not empty, and ends with
    [typer.Exit(1)] otherwise, never with another exception.  On success
    the line it prints shows the first 10 characters of the token: a prefix
    of the token, which is the whole token exactly when the token has at
    most 10 characters.  When the [_xsrf] cookie is absent ([get_xsrf]
    returns [None]) it ends with exit status 1. *)
Theorem check_outcome b p u :
  core.__init__ (Some b) = Ok u ->
  let run := main.check b p in
  let fetched := fst (core.get_xsrf (u, main.world p)) in
  let lines := trace.since (main.stdout p) (main.stdout (snd run)) in
  (fst run = Ok tt \/ fst run = Raise (Exit 1))
  /\ (fst run = Ok tt <-> exists tok, fetched = Ok (Some tok) /\ nonempty tok = true)
  /\ (forall tok, fetched = Ok (Some tok) -> nonempty tok = true ->
        lines = [main.Styled main.BLUE (main.Checking b);
                 main.Styled main.GREEN (main.Available (slice_to 10 tok))]
        /\ (exists rest, tok = slice_to 10 tok +:+ rest)
        /\ py_len (slice_to 10 tok) = Nat.min 10 (py_len tok)
        /\ (slice_to 10 tok = tok <-> (py_len tok <= 10)%nat))
  /\ (fetched = Ok None ->
        fst run = Raise (Exit 1) /\ main.exit_status (fst run) = 1).
Proof.
  intros [= <-]. cbv zeta. run_main.
  destruct (core.get_xsrf _) as [[tok|e] [u1 w1]]; simpl.
  - destruct (truthy tok) eqn:Ht; simpl.
    + destruct tok as [tok|]; [|discriminate]. simpl in Ht.
      split; [auto|]. split; [split; eauto|]. split.
      * intros tok' [= <-] _. rewrite <- !app_assoc, since_app.
        split; [reflexivity|]. split; [apply slice_to_prefix|].
        split; [apply slice_to_len|].
        split; [|apply slice_to_all].
        intros Heq. rewrite <- Heq at 1. rewrite slice_to_len. lia.
      * discriminate.
    + split; [auto|]. split; [split; [discriminate|]|].
      * intros (tok' & [= ->] & Hn). simpl in Ht. congruence.
      * split; [|auto]. intros tok' [= ->] Hn. simpl in Ht. congruence.
  - split; [auto|]. split; [split; [discriminate|intros (tok & [=] & _)]|].
    split; [discriminate|discriminate].
Qed.

End Commands.

(** The example of the specification: the login endpoint answers 302 (no
    [Location]); [update] ends with exit status 1 and touches nothing. *)
Lemma update_stops_on_auth_failure_witness :
  let g := mock.globals in
  let p := mock.fresh_proc (H := mock.bare_302) tt in
  let after := core.auth (H := mock.bare_302) (main.login g) (main.password g)
                 (mock.updater, main.world p) in
  let run := main.update (H := mock.bare_302) g ["a"; "b"] p in
  let lines := trace.since (main.stdout p) (main.stdout (snd run)) in
  let evs := trace.since (log (main.world p)) (log (main.world (snd run))) in
  core.__init__ (main.base_url g) = Ok mock.updater
  /\ after = (Ok false, (fst (snd after), snd (snd after)))
  /\ fst run = Raise (Exit 1)
  /\ main.exit_status (fst run) = 1
  /\ evs = trace.since (log (main.world p)) (log (snd (snd after))) ++ [ClientClose]
  /\ Forall (fun r => url r <> core.touch_url mock.updater) (trace.requests evs)
  /\ trace.items lines = []
  /\ main.Styled main.RED main.AuthError ∈ lines.
Proof.
  cbv zeta. split; [reflexivity|]. split; [vm_compute; reflexivity|].
  apply (update_stops_on_auth_failure (H := mock.bare_302) mock.globals ["a"; "b"]
           (mock.fresh_proc (H := mock.bare_302) tt) mock.updater
           (fst (snd (core.auth (H := mock.bare_302)
                        (main.login mock.globals) (main.password mock.globals)
                        (mock.updater, mock.fresh_world (H := mock.bare_302) tt)))));
    [reflexivity | vm_compute; reflexivity].
Defined.

(** The example of the specification: login answers 200, the touch answers
    200 for [a] and [b] and 403 for [c]. *)
Lemma update_batch_witness :
  let g := mock.globals in
  let cv_ids := ["a"; "b"; "c"] in
  let p := mock.fresh_proc (H := mock.partial) tt in
  let after := core.auth (H := mock.partial) (main.login g) (main.password g)
                 (mock.updater, main.world p) in
  let u1 := fst (snd after) in
  let run := main.update (H := mock.partial) g cv_ids p in
  let lines := trace.since (main.stdout p) (main.stdout (snd run)) in
  let evs := trace.since (log (snd (snd after))) (log (main.world (snd run))) in
  let k := trace.count trace.answered_200 evs in
  core.__init__ (main.base_url g) = Ok mock.updater
  /\ after = (Ok true, (u1, snd (snd after)))
  /\ trace.calm evs
  /\ k = 2%nat
  /\ (trace.items lines).*1 = cv_ids
  /\ trace.count snd (trace.items lines) = k
  /\ main.Styled main.GREEN (main.Summary k (length cv_ids)) ∈ lines
  /\ (fst run = Ok tt <-> k = length cv_ids)
  /\ (main.exit_status (fst run) = 0 <-> k = length cv_ids)
  /\ (fst run = Ok tt \/ fst run = Raise (Exit 1))
  /\ trace.requests evs
     = if truthy (core.xsrf u1) then map (trace.touch_request u1) cv_ids else [].
Proof.
  cbv zeta. split; [reflexivity|]. split; [vm_compute; reflexivity|].
  split; [vm_compute; repeat constructor|]. split; [vm_compute; reflexivity|].
  apply (update_batch (H := mock.partial) mock.globals ["a"; "b"; "c"]
           (mock.fresh_proc (H := mock.partial) tt) mock.updater
           (fst (snd (core.auth (H := mock.partial)
                        (main.login mock.globals) (main.password mock.globals)
                        (mock.updater, mock.fresh_world (H := mock.partial) tt)))));
    [reflexivity | vm_compute; reflexivity | vm_compute; repeat constructor].
Defined.

(** C5 as stated fails in two ways.  On a site where the touch of [b]
    times out, after a successful [auth]: [a] gets its outcome line, the
    touch of [b] raises, [c] is never attempted, and the run ends with exit
    status 1.  On a site whose touch endpoint answers 302 with a
    [Location], followed to a page answering 200: the touch POST is answered
    302, and the identifier is counted as updated. *)
Lemma batch_stops_at_fault_and_counts_redirects :
  (let g := mock.globals in
   let p := mock.fresh_proc (H := mock.flaky) tt in
   let after := core.auth (H := mock.flaky) (main.login g) (main.password g)
                  (mock.updater, main.world p) in
   let run := main.update (H := mock.flaky) g ["a"; "b"; "c"] p in
   fst after = Ok true
   /\ fst run = Raise (Exit 1)
   /\ (trace.items (main.stdout (snd run))).*1 = ["a"]
   /\ trace.requests
        (trace.since (log (snd (snd after))) (log (main.world (snd run))))
      = map (trace.touch_request (fst (snd after))) ["a"; "b"])
  /\ (let g := mock.globals in
      let p := mock.fresh_proc (H := mock.touch_redirecting) tt in
      let after := core.auth (H := mock.touch_redirecting) (main.login g)
                     (main.password g) (mock.updater, main.world p) in
      let run := main.update (H := mock.touch_redirecting) g ["a"] p in
      fst run = Ok tt
      /\ main.stdout (snd run)
         = [main.Styled main.GREEN main.AuthOk;
            main.Styled main.GREEN (main.Updated "a");
            main.Styled main.GREEN (main.Summary 1 1)]
      /\ exists sent rest answer,
           trace.since (log (snd (snd after))) (log (main.world (snd run)))
           = [ClientCall (trace.touch_request (fst (snd after)) "a")
                ((sent, Ok (mock.page 302 (Some "https://hh.ru/applicant/resumes") None))
                 :: rest) answer;
              ClientClose]).
Proof.
  cbv zeta. split.
  - vm_compute. auto.
  - split; [vm_compute; reflexivity|]. split; [vm_compute; reflexivity|].
    do 3 eexists. vm_compute. reflexivity.
Qed.

(** The example of the specification: no [_xsrf] cookie is set. *)
Lemma check_outcome_witness :
  let b := "https://hh.ru/" in
  let p := mock.fresh_proc (H := mock.tokenless) tt in
  let run := main.check (H := mock.tokenless) b p in
  let fetched := fst (core.get_xsrf (H := mock.tokenless) (mock.updater, main.world p)) in
  core.__init__ (Some b) = Ok mock.updater
  /\ fetched = Ok None
  /\ fst run = Raise (Exit 1)
  /\ main.exit_status (fst run) = 1.
Proof.
  cbv zeta. split; [reflexivity|]. split; [vm_compute; reflexivity|].
  apply (check_outcome (H := mock.tokenless) "https://hh.ru/"
           (mock.fresh_proc (H := mock.tokenless) tt) mock.updater eq_refl).
  vm_compute. reflexivity.
Defined.

(** C8 as stated fails: the login page sets the token [abc]; [check]
    succeeds and the line it prints shows [abc], the full token. *)
Lemma check_shows_whole_short_token :
  let p := mock.fresh_proc (H := mock.short_token) tt in
  let run := main.check (H := mock.short_token) "https://hh.ru/" p in
  fst (core.get_xsrf (H := mock.short_token) (mock.updater, main.world p))
  = Ok (Some "abc")
  /\ fst run = Ok tt
  /\ main.stdout (snd run)
     = [main.Styled main.BLUE (main.Checking "https://hh.ru/");
        main.Styled main.GREEN (main.Available "abc")].
Proof. vm_compute. auto. Qed.

(** * Further properties of the session client and the commands *)

Section CookieFacts.
Variable name : string.

Lemma Cookies_get_from_others jar value :
  Forall (fun c => cookie_name c <> name) jar ->
  Cookies_get_from name jar value = Ok value.
Proof.
  induction 1 as [|c jar Hc _ IH]; simpl; [reflexivity|].
  destruct (String.eqb_spec (cookie_name c) name); [contradiction|exact IH].
Qed.

Lemma Cookies_get_from_second jar c post v :
  cookie_name c = name ->
  exists msg, Cookies_get_from name (jar ++ c :: post) (Some v) = Raise (CookieConflict msg).
Proof.
  intros Hc. induction jar as [|d jar IH]; simpl.
  - rewrite Hc, String.eqb_refl. eauto.
  - destruct (String.eqb (cookie_name d) name); [eauto|exact IH].
Qed.

Lemma Cookies_get_from_conflict pre c1 mid c2 post v : forall value,
  cookie_name c1 = name -> cookie_name c2 = name -> cookie_value c1 = Some v ->
  exists msg,
    Cookies_get_from name (pre ++ c1 :: mid ++ c2 :: post) value
    = Raise (CookieConflict msg).
Proof.
  intros value H1 H2 Hv. revert value.
  induction pre as [|d pre IH]; intros value; simpl.
  - rewrite H1, String.eqb_refl. destruct value; [eauto|].
    rewrite Hv. apply Cookies_get_from_second, H2.
  - destruct (String.eqb (cookie_name d) name); [|apply IH].
    destruct value; [eauto|apply IH].
Qed.

Lemma Cookies_get_single pre c post :
  cookie_name c = name ->
  Forall (fun d => cookie_name d <> name) pre ->
  Forall (fun d => cookie_name d <> name) post ->
  Cookies_get name (pre ++ c :: post) = Ok (cookie_value c).
Proof.
  intros Hc Hpre Hpost. unfold Cookies_get.
  induction Hpre as [|d pre Hd _ IH]; simpl.
  - rewrite Hc, String.eqb_refl. apply Cookies_get_from_others, Hpost.
  - destruct (String.eqb_spec (cookie_name d) name); [contradiction|exact IH].
Qed.

End CookieFacts.

Section SessionFacts.
Context `{Http}.

(** [get_xsrf] makes one call, the GET of the login page.  When the call
    returns a response (the last one received on the wire), the [_xsrf]
    cookie is looked up in the cookies of that response: the value found
    (nothing when there is no such cookie) replaces whatever was cached and
    is returned; when the lookup raises, so does [get_xsrf], and the object
    is unchanged, as it is when the call raises.  The lookup finds nothing
    when no cookie has the name, finds the value of the cookie when exactly
    one has, and raises [CookieConflict] when a cookie of that name with a
    value is followed by another of that name. *)
Theorem get_xsrf_effect this w :
  let run := core.get_xsrf (this, w) in
  (exists wire answer,
     log (snd (snd run)) = log w ++ [ClientCall (trace.login_page_request this) wire answer]
     /\ match answer with
        | Ok response =>
            (exists sent, last wire = Some (sent, Ok response))
            /\ match Cookies_get "_xsrf" (cookies response) with
               | Ok value =>
                   fst run = Ok value /\ fst (snd run) = trace.with_xsrf this value
               | Raise e => fst run = Raise e /\ fst (snd run) = this
               end
        | Raise e => fst run = Raise e /\ fst (snd run) = this
        end)
  /\ (forall jar,
        Forall (fun c => cookie_name c <> "_xsrf") jar ->
        Cookies_get "_xsrf" jar = Ok None)
  /\ (forall pre c post,
        cookie_name c = "_xsrf" ->
        Forall (fun d => cookie_name d <> "_xsrf") pre ->
        Forall (fun d => cookie_name d <> "_xsrf") post ->
        Cookies_get "_xsrf" (pre ++ c :: post) = Ok (cookie_value c))
  /\ (forall pre c1 mid c2 post v,
        cookie_name c1 = "_xsrf" -> cookie_name c2 = "_xsrf" ->
        cookie_value c1 = Some v ->
        exists msg,
          Cookies_get "_xsrf" (pre ++ c1 :: mid ++ c2 :: post)
          = Raise (CookieConflict msg)).
Proof.
  cbv zeta. split; [|split; [|split]].
  - rewrite get_xsrf_unfold. unfold get.
    destruct (request _ _ w) as [[response|e] w'] eqn:E.
    + destruct (request_answer _ _ _ _ _ E) as (wire & sent & Hlog & Hlast).
      exists wire, (Ok response).
      destruct (Cookies_get "_xsrf" (cookies response)); simpl; eauto 10.
    + destruct (request_logs _ _ _ _ _ E) as [wire Hlog].
      exists wire, (Raise e). simpl. auto.
  - intros jar Hjar. apply Cookies_get_from_others, Hjar.
  - intros pre c post. apply Cookies_get_single.
  - intros pre c1 mid c2 post v. apply Cookies_get_from_conflict.
Qed.

(** A fetch that finds no token empties the slot, also when a token was
    cached: [update_cv] then returns false and calls nothing. *)
Theorem fetch_without_cookie_clears_token cv_id this w tok this1 w1 :
  core.get_xsrf (this, w) = (Ok tok, (this1, w1)) ->
  truthy tok = false ->
  core.xsrf this1 = tok
  /\ core.update_cv cv_id (this1, w1) = (Ok false, (this1, w1)).
Proof.
  intros Hget Htok. rewrite get_xsrf_unfold in Hget.
  destruct (get _ _ w) as [[response|e] w0]; [|discriminate].
  destruct (Cookies_get "_xsrf" (cookies response)) as [value|e]; [|discriminate].
  injection Hget as <- <- <-. split; [reflexivity|].
  rewrite update_cv_unfold. simpl. rewrite Htok. reflexivity.
Qed.

(** After an [auth] that fetched a token, the same token is used from then
    on: it is the [_xsrf] field of the login POST that was just sent and the
    [X-Xsrftoken] header of a later touch POST, and neither [update_cv] nor
    a second [auth] fetches again. *)
Theorem fetched_token_is_reused login password this w ok this1 w1 cv_id login2 password2 :
  truthy (core.xsrf this) = false ->
  core.auth login password (this, w) = (Ok ok, (this1, w1)) ->
  truthy (core.xsrf this1) = true ->
  exists tok,
    core.xsrf this1 = Some tok
    /\ (exists pre wire answer,
          log w1 = pre ++ [ClientCall (trace.login_post_request this1 login password)
                             wire answer]
          /\ data (trace.login_post_request this1 login password) !! "_xsrf"
             = Some (Some tok))
    /\ trace.requests
         (trace.since (log w1) (log (snd (snd (core.update_cv cv_id (this1, w1))))))
       = [trace.touch_request this1 cv_id]
    /\ headers (trace.touch_request this1 cv_id) !! "X-Xsrftoken" = Some tok
    /\ trace.requests
         (trace.since (log w1)
            (log (snd (snd (core.auth login2 password2 (this1, w1))))))
       = [trace.login_post_request this1 login2 password2].
Proof.
  intros Ht Hauth Ht1.
  destruct (core.xsrf this1) as [tok|] eqn:Hx; [|discriminate]. simpl in Ht1.
  exists tok. split; [reflexivity|].
  rewrite (auth_unfold_fetch _ _ _ _ Ht) in Hauth.
  destruct (core.get_xsrf (this, w)) as [[v|e] [this0 w0]]; [|discriminate].
  destruct (post _ _ _ _ w0) as [a w'] eqn:E.
  destruct (request_logs _ _ _ _ _ E) as [wire Hlog].
  assert (this0 = this1 /\ w' = w1) as [-> ->] by (destruct a; simplify_eq; auto).
  split.
  { exists (log w0), wire, a. split; [exact Hlog|].
    simpl. unfold core.login_form.
    rewrite !lookup_insert_ne by discriminate. rewrite lookup_insert_eq.
    unfold py_or. rewrite Hx, Ht1. reflexivity. }
  split.
  { rewrite update_cv_unfold. unfold truthy. rewrite Hx, Ht1.
    destruct (post _ _ _ _ w1) as [a1 w2] eqn:E1.
    destruct (request_logs _ _ _ _ _ E1) as [wire1 Hlog1].
    destruct a1; simpl; rewrite Hlog1, since_app; reflexivity. }
  split.
  { simpl. unfold core.touch_headers. rewrite lookup_insert_eq, Hx. reflexivity. }
  rewrite auth_unfold_cached by (unfold truthy; rewrite Hx; exact Ht1).
  destruct (post _ _ _ _ w1) as [a2 w2] eqn:E2.
  destruct (request_logs _ _ _ _ _ E2) as [wire2 Hlog2].
  destruct a2; simpl; rewrite Hlog2, since_app; reflexivity.
Qed.

(** No method changes the base URL or the client of the object.  The token
    slot is written only by a fetch: [update_cv] leaves the object as it
    was, and so does [auth] unless it had to fetch. *)
Theorem methods_keep_the_object login password cv_id this w :
  let after_fetch := fst (snd (core.get_xsrf (this, w))) in
  let after_auth := fst (snd (core.auth login password (this, w))) in
  let after_touch := fst (snd (core.update_cv cv_id (this, w))) in
  (core.base_url after_fetch = core.base_url this
   /\ core.client after_fetch = core.client this)
  /\ (core.base_url after_auth = core.base_url this
      /\ core.client after_auth = core.client this
      /\ (after_auth = this \/ (truthy (core.xsrf this) = false /\ after_auth = after_fetch)))
  /\ after_touch = this.
Proof.
  cbv zeta. split; [|split].
  - rewrite get_xsrf_unfold.
    destruct (get _ _ w) as [[response|e] w']; simpl; [|auto].
    destruct (Cookies_get "_xsrf" (cookies response)); simpl; auto.
  - destruct (truthy (core.xsrf this)) eqn:Ht.
    + rewrite (auth_unfold_cached _ _ _ _ Ht).
      destruct (post _ _ _ _ w) as [[response|e] w']; simpl; auto.
    + rewrite (auth_unfold_fetch _ _ _ _ Ht), get_xsrf_unfold.
      destruct (get _ _ w) as [[response|e] w1]; simpl; [|auto].
      destruct (Cookies_get "_xsrf" (cookies response)); simpl; [|auto].
      destruct (post _ _ _ _ w1) as [[r2|e] w']; simpl; auto.
  - rewrite update_cv_unfold. destruct (truthy (core.xsrf this)); [|reflexivity].
    destruct (post _ _ _ _ w) as [[response|e] w']; reflexivity.
Qed.

(** The exchanges of one call: the first carries the request as given, a
    final first answer ends the call, and never more than the allowed number
    of requests goes out. *)
Lemma redirects_wire sends follow : forall req n answer wire n',
  send_handling_redirects sends follow req n = (answer, wire, n') ->
  (length wire <= sends)%nat
  /\ (sends <> O ->
      exists first rest,
        wire = (req, first) :: rest
        /\ (trace.direct first = true -> rest = [] /\ answer = first)).
Proof.
  induction sends as [|k IH]; intros req n answer wire n'; simpl.
  - intros [= <- <- <-]. split; [simpl; lia|congruence].
  - destruct (transport n req) as [n1 [r1|e]].
    + destruct (has_redirect_location r1) eqn:Hr.
      * destruct (build_redirect_request req r1) as [next|e].
        -- destruct follow.
           ++ destruct (send_handling_redirects k true next n1) as [[a wire'] n2] eqn:E.
              intros [= <- <- <-]. destruct (IH _ _ _ _ _ E) as [Hlen _].
              split; [simpl; lia|]. intros _. eexists _, _. split; [reflexivity|].
              simpl. rewrite Hr. discriminate.
           ++ intros [= <- <- <-]. split; [simpl; lia|]. intros _.
              eexists _, _. split; [reflexivity|]. simpl. rewrite Hr. discriminate.
        -- intros [= <- <- <-]. split; [simpl; lia|]. intros _.
           eexists _, _. split; [reflexivity|]. simpl. rewrite Hr. discriminate.
      * intros [= <- <- <-]. split; [simpl; lia|]. intros _.
        eexists _, _. split; [reflexivity|]. auto.
    + intros [= <- <- <-]. split; [simpl; lia|]. intros _.
      eexists _, _. split; [reflexivity|]. auto.
Qed.

Lemma request_open c r w answer w' on_wire :
  build_request c r = Ok on_wire ->
  is_closed c = false ->
  request c r w = (answer, w') ->
  exists first rest,
    log w' = log w ++ [ClientCall r ((on_wire, first) :: rest) answer]
    /\ (length rest <= max_redirects)%nat
    /\ (trace.direct first = true -> rest = [] /\ answer = first).
Proof.
  intros Hb Hc. unfold request. rewrite Hb, Hc.
  destruct (send_handling_redirects _ _ _ _) as [[a wire] n'] eqn:E.
  intros [= <- <-].
  destruct (redirects_wire _ _ _ _ _ _ _ E) as [Hlen Hfirst].
  destruct Hfirst as (first & rest & -> & Hdirect); [discriminate|].
  exists first, rest. unfold max_redirects in *. simpl in Hlen.
  split; [reflexivity|]. split; [apply le_S_n, Hlen|exact Hdirect].
Qed.

Lemma request_refused c r w e :
  build_request c r = Raise e ->
  request c r w
  = (Raise e, {| net := net w; log := log w ++ [ClientCall r [] (Raise e)] |}).
Proof. intros Hb. unfold request. rewrite Hb. reflexivity. Qed.

Lemma request_closed c r w :
  is_closed c = true ->
  exists e,
    request c r w
    = (Raise e, {| net := net w; log := log w ++ [ClientCall r [] (Raise e)] |}).
Proof.
  intros Hc. unfold request. destruct (build_request c r); [rewrite Hc|];
    eexists; reflexivity.
Qed.

(** A call whose first answer is final has that one exchange only. *)
Lemma request_final c r w a w' req sent first rest answer :
  request c r w = (a, w') ->
  trace.since (log w) (log w') = [ClientCall req ((sent, first) :: rest) answer] ->
  trace.direct first = true ->
  rest = [] /\ answer = first /\ a = first.
Proof.
  unfold request. destruct (build_request c r) as [on_wire|e].
  - destruct (is_closed c).
    + intros [= <- <-]. simpl. rewrite since_app. discriminate.
    + destruct (send_handling_redirects _ _ _ _) as [[a0 wire] n'] eqn:E.
      intros [= <- <-]. simpl. rewrite since_app. intros [= <- -> <-] Hdirect.
      destruct (redirects_wire _ _ _ _ _ _ _ E) as [_ Hfirst].
      destruct Hfirst as (first' & rest' & [= <- <-] & Hfinal); [discriminate|].
      destruct (Hfinal Hdirect) as [-> ->]. auto.
  - intros [= <- <-]. simpl. rewrite since_app. discriminate.
Qed.

Lemma common_headers_kept (h : gmap string string) k v :
  core.COMMON_HEADERS !! k = Some v ->
  h !! "User-Agent" = None -> h !! "Accept" = None ->
  h !! "Accept-Encoding" = None -> h !! "Accept-Language" = None ->
  h !! "Connection" = None -> h !! "DNT" = None ->
  (h ∪ core.COMMON_HEADERS) !! k = Some v.
Proof.
  intros Hk H1 H2 H3 H4 H5 H6.
  assert (h !! k = None) as Hh.
  { unfold core.COMMON_HEADERS in Hk.
    repeat (rewrite lookup_insert in Hk; case_decide; [subst k; assumption|]).
    rewrite lookup_empty in Hk. discriminate. }
  rewrite lookup_union_r; assumption.
Qed.

Lemma ascii_only_app (a b : string) :
  ascii_only (a +:+ b) = ascii_only a && ascii_only b.
Proof.
  induction a as [|c a IH]; string_append; simpl; [reflexivity|].
  rewrite IH. apply andb_assoc.
Qed.

(** The headers of the touch POST can be encoded exactly when the token, the
    base URL and the identifier are ASCII. *)
Lemma touch_headers_encodable this cv_id :
  encodable (core.touch_headers this cv_id)
  = ascii_only (default "" (core.xsrf this))
    && (ascii_only (core.base_url this) && ascii_only cv_id).
Proof.
  unfold encodable, core.touch_headers.
  destruct (ascii_only (default "" (core.xsrf this))) eqn:Hx; simpl.
  - destruct (ascii_only (core.base_url this) && ascii_only cv_id) eqn:Hr.
    + apply bool_decide_eq_true.
      repeat (apply map_Forall_insert_2;
              [split; [reflexivity|]; first [exact Hx | reflexivity | idtac]|]).
      * rewrite !ascii_only_app. apply andb_prop in Hr as [-> ->]. reflexivity.
      * apply map_Forall_empty.
    + apply bool_decide_eq_false. intros Hall.
      destruct (Hall "Referer" _ ltac:(rewrite !lookup_insert_ne by discriminate;
                                       apply lookup_insert_eq)) as [_ Hv].
      rewrite !ascii_only_app in Hv. simpl in Hv. congruence.
  - apply bool_decide_eq_false. intros Hall.
    destruct (Hall "X-Xsrftoken" _ ltac:(apply lookup_insert_eq)) as [_ Hv].
    congruence.
Qed.

(** A touch call of an open session with a token, when the touch URL is
    accepted and the token, the base URL and the identifier are ASCII, puts
    at least one and at most 21 requests on the wire, and the first is the
    touch POST: to the touch URL, with the form [resume], [undirectable],
    the token in [X-Xsrftoken], the page of the resume as [Referer], and
    every header of [COMMON_HEADERS] with its value (the headers of the call
    replace none of them). *)
Theorem touch_post_on_the_wire cv_id this w tok :
  core.xsrf this = Some tok ->
  nonempty tok = true ->
  is_closed (core.client this) = false ->
  default_headers (core.client this) = core.COMMON_HEADERS ->
  url_error (core.touch_url this) = None ->
  ascii_only tok = true ->
  ascii_only (core.base_url this) = true ->
  ascii_only cv_id = true ->
  exists sent first rest answer,
    trace.since (log w) (log (snd (snd (core.update_cv cv_id (this, w)))))
    = [ClientCall (trace.touch_request this cv_id) ((sent, first) :: rest) answer]
    /\ (length rest <= 20)%nat
    /\ method sent = POST
    /\ url sent = core.base_url this +:+ "/applicant/resumes/touch"
    /\ data sent !! "resume" = Some (Some cv_id)
    /\ data sent !! "undirectable" = Some (Some "true")
    /\ headers sent !! "X-Xsrftoken" = Some tok
    /\ headers sent !! "X-Requested-With" = Some "XMLHttpRequest"
    /\ headers sent !! "Referer"
       = Some (core.base_url this +:+ "/applicant/resumes/" +:+ cv_id)
    /\ (forall k v, core.COMMON_HEADERS !! k = Some v -> headers sent !! k = Some v).
Proof.
  intros Hx Hn Hopen Hdef Hurl Htok Hbase Hid.
  rewrite update_cv_unfold. unfold truthy. rewrite Hx, Hn.
  unfold post. destruct (request _ _ w) as [a w'] eqn:E.
  assert (build_request (core.client this)
            {| method := POST; url := core.touch_url this;
               headers := core.touch_headers this cv_id;
               data := core.touch_form cv_id |}
          = Ok {| method := POST; url := core.touch_url this;
                  headers := core.touch_headers this cv_id ∪ core.COMMON_HEADERS;
                  data := core.touch_form cv_id |}) as Hbuild.
  { unfold build_request. simpl. rewrite Hurl, touch_headers_encodable, Hx. simpl.
    rewrite Htok, Hbase, Hid, Hdef. reflexivity. }
  destruct (request_open _ _ _ _ _ _ Hbuild Hopen E) as (first & rest & Hlog & Hlen & _).
  eexists _, first, rest, a. split.
  { destruct a; simpl; rewrite Hlog, since_app; reflexivity. }
  split; [exact Hlen|]. simpl.
  split; [reflexivity|]. split; [reflexivity|].
  unfold core.touch_form, core.touch_headers. rewrite Hx. simpl.
  split; [apply lookup_insert_eq|].
  split; [rewrite lookup_insert_ne by discriminate; apply lookup_insert_eq|].
  split; [apply lookup_union_Some_l, lookup_insert_eq|].
  split; [apply lookup_union_Some_l; rewrite lookup_insert_ne by discriminate;
          apply lookup_insert_eq|].
  split; [apply lookup_union_Some_l; rewrite !lookup_insert_ne by discriminate;
          apply lookup_insert_eq|].
  intros k v Hk. apply common_headers_kept; [exact Hk|..];
    rewrite !lookup_insert_ne by discriminate; apply lookup_empty.
Qed.

(** A touch call for an identifier that is not ASCII (or with such a token
    or base URL) fails before anything is sent: the [Referer] header cannot
    be encoded, [update_cv] raises, nothing is exchanged with the site and
    the object is unchanged. *)
Theorem touch_that_cannot_be_encoded cv_id this w :
  truthy (core.xsrf this) = true ->
  ascii_only (default "" (core.xsrf this))
  && (ascii_only (core.base_url this) && ascii_only cv_id) = false ->
  trace.offline this w (core.update_cv cv_id (this, w)).
Proof.
  intros Ht Hbad. rewrite update_cv_unfold, Ht. unfold post.
  assert (exists e, build_request (core.client this)
                      {| method := POST; url := core.touch_url this;
                         headers := core.touch_headers this cv_id;
                         data := core.touch_form cv_id |} = Raise e) as [e Hbuild].
  { unfold build_request. simpl. rewrite touch_headers_encodable, Hbad.
    destruct (url_error _); eauto. }
  rewrite (request_refused _ _ _ _ Hbuild). unfold trace.offline. simpl.
  rewrite since_app. split; [eauto|]. split; [reflexivity|]. split; [reflexivity|].
  repeat constructor.
Qed.

(** Nothing is retried: when the first answer to a call of an open session
    is a fault, or a response that is not a redirect with a [Location], that
    exchange is the only one of the call, and its answer is what the method
    gets: [auth] and [update_cv] return whether its status is 200, or raise
    its fault. *)
Theorem direct_answer_is_final login password cv_id this w :
  is_closed (core.client this) = false ->
  truthy (core.xsrf this) = true ->
  forall (run : Res bool * core.Self),
    run = core.auth login password (this, w)
    \/ run = core.update_cv cv_id (this, w) ->
    forall req sent first rest answer,
      trace.since (log w) (log (snd (snd run)))
      = [ClientCall req ((sent, first) :: rest) answer] ->
      trace.direct first = true ->
      rest = []
      /\ answer = first
      /\ fst run = match first with
                   | Ok response => Ok (status_code response =? 200)
                   | Raise e => Raise e
                   end.
Proof.
  intros Hopen Ht run Hrun req sent first rest answer Hsince Hdirect.
  assert (exists r d h a w',
            request (core.client this) {| method := POST; url := r; headers := h; data := d |} w
            = (a, w')
            /\ run = (match a with
                      | Ok response => Ok (status_code response =? 200)
                      | Raise e => Raise e
                      end, (this, w'))) as (r & d & h & a & w' & E & ->).
  { destruct Hrun as [-> | ->].
    - rewrite (auth_unfold_cached _ _ _ _ Ht). unfold post.
      destruct (request _ _ w) as [a w'] eqn:E.
      eexists _, _, _, a, w'. split; [exact E|]. destruct a; reflexivity.
    - rewrite update_cv_unfold, Ht. unfold post.
      destruct (request _ _ w) as [a w'] eqn:E.
      eexists _, _, _, a, w'. split; [exact E|]. destruct a; reflexivity. }
  simpl in Hsince.
  destruct (request_final _ _ _ _ _ _ _ _ _ _ E Hsince Hdirect) as (-> & -> & ->).
  auto.
Qed.

(** [__exit__] closes the client and changes nothing else of the object,
    and puts nothing on the wire.  From then on [get_xsrf], [auth] and, with
    a token, [update_cv] raise without any exchange with the site, and leave
    the object as it is. *)
Theorem closed_session_is_inert login password cv_id this w w2 :
  let left := core.__exit__ (this, w) in
  let this' := fst (snd left) in
  fst left = Ok tt
  /\ is_closed (core.client this') = true
  /\ core.base_url this' = core.base_url this
  /\ core.xsrf this' = core.xsrf this
  /\ net (snd (snd left)) = net w
  /\ log (snd (snd left)) = log w ++ [ClientClose]
  /\ trace.offline this' w2 (core.get_xsrf (this', w2))
  /\ trace.offline this' w2 (core.auth login password (this', w2))
  /\ (truthy (core.xsrf this) = true ->
      trace.offline this' w2 (core.update_cv cv_id (this', w2))).
Proof.
  cbv zeta. unfold core.__exit__, bind, core.self, core.http, core.set_client,
    modify, close. simpl.
  do 6 (split; [reflexivity|]).
  set (this' := {| core.base_url := core.base_url this;
                   core.client := _; core.xsrf := core.xsrf this |}).
  assert (is_closed (core.client this') = true) as Hc by reflexivity.
  assert (forall r, exists e w',
            request (core.client this') r w2 = (Raise e, w')
            /\ forall A, trace.offline (A := A) this' w2 (Raise e, (this', w'))) as Hreq.
  { intros r. destruct (request_closed (core.client this') r w2 Hc) as [e ->].
    eexists _, _. split; [reflexivity|]. intros A.
    unfold trace.offline. simpl. rewrite since_app.
    split; [eauto|]. split; [reflexivity|]. split; [reflexivity|].
    repeat constructor. }
  assert (trace.offline this' w2 (core.get_xsrf (this', w2))) as Hfetch.
  { rewrite get_xsrf_unfold. unfold get.
    match goal with |- context [request _ ?r w2] =>
      destruct (Hreq r) as (e & w' & -> & Hoff) end.
    apply Hoff. }
  split; [exact Hfetch|]. split.
  - destruct (truthy (core.xsrf this')) eqn:Ht.
    + rewrite (auth_unfold_cached _ _ _ _ Ht). unfold post.
      match goal with |- context [request _ ?r w2] =>
        destruct (Hreq r) as (e & w' & -> & Hoff) end.
      apply Hoff.
    + rewrite (auth_unfold_fetch _ _ _ _ Ht).
      destruct Hfetch as ([e He] & Hobj & Hnet & Hwire).
      destruct (core.get_xsrf (this', w2)) as [[v|e'] [this1 w1]]; [discriminate|].
      unfold trace.offline. simpl in *. eauto.
  - intros Ht. rewrite update_cv_unfold.
    change (core.xsrf this') with (core.xsrf this). rewrite Ht. unfold post.
    match goal with |- context [request _ ?r w2] =>
      destruct (Hreq r) as (e & w' & -> & Hoff) end.
    apply Hoff.
Qed.

End SessionFacts.

Lemma fetch_without_cookie_clears_token_witness :
  let this := mock.updater_with (Some "tok") in
  let w := mock.fresh_world (H := mock.tokenless) tt in
  let fetched := core.get_xsrf (H := mock.tokenless) (this, w) in
  fetched = (Ok None, snd fetched)
  /\ truthy None = false
  /\ core.xsrf (fst (snd fetched)) = None
  /\ core.update_cv (H := mock.tokenless) "123" (snd fetched) = (Ok false, snd fetched).
Proof.
  cbv zeta. split; [vm_compute; reflexivity|]. split; [reflexivity|].
  apply (fetch_without_cookie_clears_token (H := mock.tokenless) "123"
           (mock.updater_with (Some "tok"))
           (mock.fresh_world (H := mock.tokenless) tt) None
           (fst (snd (core.get_xsrf (H := mock.tokenless)
                        (mock.updater_with (Some "tok"),
                         mock.fresh_world (H := mock.tokenless) tt))))
           (snd (snd (core.get_xsrf (H := mock.tokenless)
                        (mock.updater_with (Some "tok"),
                         mock.fresh_world (H := mock.tokenless) tt)))));
    [vm_compute; reflexivity | reflexivity].
Defined.

Section CommandFacts.
Context `{Http}.

(** The loop of [update], whatever happens: either it goes through all the
    identifiers, or it stops at the first touch call that raises. *)
Lemma update_each_shape verbose cv_ids : forall n u p,
  exists r p' evs lines,
    main.update_each verbose cv_ids n (u, p) = (r, (u, p'))
    /\ log (main.world p') = log (main.world p) ++ evs
    /\ main.stdout p' = main.stdout p ++ lines
    /\ Forall (fun l => trace.loop_line l = true) lines
    /\ Forall (fun e => trace.is_call e = true) evs
    /\ match r with
       | Ok a =>
           (trace.items lines).*1 = cv_ids
           /\ a = (n + trace.count snd (trace.items lines))%nat
           /\ trace.calm evs
           /\ trace.count trace.answered_200 evs = trace.count snd (trace.items lines)
           /\ trace.requests evs
              = if truthy (core.xsrf u) then map (trace.touch_request u) cv_ids else []
       | Raise e =>
           exists done cv_id rest pre wire,
             cv_ids = done ++ cv_id :: rest
             /\ (trace.items lines).*1 = done
             /\ evs = pre ++ [ClientCall (trace.touch_request u cv_id) wire (Raise e)]
             /\ trace.calm pre
             /\ trace.requests evs = map (trace.touch_request u) (done ++ [cv_id])
             /\ truthy (core.xsrf u) = true
       end.
Proof.
  induction cv_ids as [|cv_id rest IH]; intros n u p.
  - exists (Ok n), p, [], []. simpl. rewrite !app_nil_r, Nat.add_0_r.
    repeat (split; [first [reflexivity | constructor]|]).
    destruct (truthy (core.xsrf u)); reflexivity.
  - rewrite update_each_cons. cbv zeta.
    set (p0 := if verbose then _ else p).
    assert (exists pre, main.stdout p0 = main.stdout p ++ pre /\ trace.items pre = []
                        /\ Forall (fun l => trace.loop_line l = true) pre
                        /\ main.world p0 = main.world p) as (pre & Hpre & Hitems & Hloop & Hw).
    { subst p0. destruct verbose; simpl.
      - eexists; split; [reflexivity|]; repeat split; repeat constructor.
      - exists []; rewrite app_nil_r; repeat split; constructor. }
    rewrite Hw.
    destruct (update_cv_run cv_id u (main.world p)) as (r1 & w1 & evs1 & Hrun & Hlog1 & Hcase).
    rewrite Hrun. destruct r1 as [ok|e].
    + match goal with |- context [main.update_each verbose rest ?m (u, ?q)] =>
        destruct (IH m u q)
          as (r & p' & evs & lines & Heach & Hlog & Hout & Hlines & Hcalls & Hres)
      end.
      simpl in Hlog, Hout.
      exists r, p', (evs1 ++ evs).
      exists (pre ++ [if ok then main.Styled main.GREEN (main.Updated cv_id)
                      else main.Styled main.RED (main.NotUpdated cv_id)] ++ lines).
      split; [exact Heach|].
      split; [rewrite Hlog, Hlog1, app_assoc; reflexivity|].
      split; [rewrite Hout, Hpre, <- !app_assoc; reflexivity|].
      split.
      { apply Forall_app. split; [exact Hloop|]. constructor; [destruct ok; reflexivity|].
        exact Hlines. }
      assert (Forall (fun e => trace.is_call e = true) evs1
              /\ trace.calm evs1
              /\ trace.count trace.answered_200 evs1 = (if ok then 1 else 0)%nat
              /\ trace.requests evs1
                 = if truthy (core.xsrf u) then [trace.touch_request u cv_id] else [])
        as (Hcalls1 & Hcalm1 & Hcount1 & Hreqs1).
      { destruct (truthy (core.xsrf u)).
        - destruct Hcase as (wire & answer & -> & Hans).
          destruct answer as [response|e]; [|discriminate].
          injection Hans as ->. simpl.
          repeat split; repeat constructor.
        - destruct Hcase as [-> [= ->]]. repeat split; constructor. }
      split; [apply Forall_app; auto|].
      unfold trace.items, trace.requests in *.
      destruct r as [a|e].
      * destruct Hres as (Hids & Ha & Hcalm & Hcount & Hreqs).
        rewrite !omap_app, Hitems, !fmap_app, !count_app, Hids, Hcount1, Hreqs1, Hreqs.
        simpl app.
        split; [destruct ok; reflexivity|].
        split; [destruct ok; simpl; lia|].
        split; [apply Forall_app; auto|].
        split; [destruct ok; simpl; lia|].
        destruct (truthy (core.xsrf u)); reflexivity.
      * destruct Hres as (done & id & rest' & pre' & wire & -> & Hids & -> & Hcalm & Hreqs & Ht).
        exists (cv_id :: done), id, rest', (evs1 ++ pre'), wire.
        rewrite !omap_app, Hitems, !fmap_app, Hids. simpl app.
        split; [reflexivity|]. split; [destruct ok; reflexivity|].
        split; [rewrite app_assoc; reflexivity|].
        split; [apply Forall_app; auto|].
        rewrite omap_app, fmap_app in Hreqs. simpl in Hreqs.
        rewrite Hreqs, Hreqs1, Ht. auto.
    + destruct (truthy (core.xsrf u)) eqn:Ht; [|destruct Hcase as [_ [=]]].
      destruct Hcase as (wire & answer & -> & Hans).
      destruct answer as [response|e']; [discriminate|]. injection Hans as <-.
      eexists _, _, _, pre. split; [reflexivity|]. simpl.
      split; [exact Hlog1|]. split; [exact Hpre|]. split; [exact Hloop|].
      split; [repeat constructor|].
      exists [], cv_id, rest, [], wire. rewrite Hitems.
      repeat split. constructor.
Qed.

(** [update], from the outcome of [auth] and of the loop. *)
Lemma update_unfold g cv_ids p u :
  core.__init__ (main.base_url g) = Ok u ->
  main.update g cv_ids p =
  let intro := trace.intro_lines g cv_ids in
  let tb := trace.traceback_lines g in
  let total := length cv_ids in
  match core.auth (main.login g) (main.password g) (u, main.world p) with
  | (Ok true, (u1, w1)) =>
      match main.update_each (main.verbose g) cv_ids 0
              (u1, {| main.stdout := main.stdout p ++ intro
                                     ++ [main.Styled main.GREEN main.AuthOk];
                      main.world := w1 |}) with
      | (Ok a, (_, p2)) =>
          if (a <? total)%nat then
            (Raise (Exit 1),
             {| main.stdout := main.stdout p2
                               ++ [main.Styled main.GREEN (main.Summary a total);
                                   main.Styled main.RED (main.Unexpected (Exit 1))]
                               ++ tb;
                main.world := trace.closed_world (main.world p2) |})
          else
            (Ok tt,
             {| main.stdout := main.stdout p2
                               ++ [main.Styled main.GREEN (main.Summary a total)];
                main.world := trace.closed_world (main.world p2) |})
      | (Raise e, (_, p2)) =>
          (Raise (Exit 1),
           {| main.stdout := main.stdout p2
                             ++ [main.Styled main.RED (main.Unexpected e)] ++ tb;
              main.world := trace.closed_world (main.world p2) |})
      end
  | (Ok false, (_, w1)) =>
      (Raise (Exit 1),
       {| main.stdout := main.stdout p ++ intro
                         ++ [main.Styled main.RED main.AuthError;
                             main.Styled main.RED (main.Unexpected (Exit 1))] ++ tb;
          main.world := trace.closed_world w1 |})
  | (Raise e, (_, w1)) =>
      (Raise (Exit 1),
       {| main.stdout := main.stdout p ++ intro
                         ++ [main.Styled main.RED (main.Unexpected e)] ++ tb;
          main.world := trace.closed_world w1 |})
  end.
Proof.
  intros Hinit. cbv zeta. unfold trace.intro_lines, trace.traceback_lines, trace.closed_world.
  run_main. rewrite Hinit. simpl.
  destruct (main.verbose g); simpl;
    destruct (core.auth _ _ _) as [[[|]|e] [u1 w1]]; simpl;
    rewrite <- ?app_assoc; simpl; try reflexivity.
  all: destruct (main.update_each _ _ _ _) as [[a|e] [u2 p2]]; simpl;
    [destruct (a <? length cv_ids)%nat; simpl|]; rewrite <- ?app_assoc; reflexivity.
Qed.

(** [update] ends in one of two ways only: it returns, or it ends with
    [typer.Exit(1)]; no other exception leaves it, whatever the site and the
    network do.  It returns only after a run in which every identifier got
    a success line and the summary counts all of them. *)
Theorem update_ends_with_0_or_1 g cv_ids p :
  let run := main.update g cv_ids p in
  let lines := trace.since (main.stdout p) (main.stdout (snd run)) in
  (fst run = Ok tt \/ fst run = Raise (Exit 1))
  /\ (main.exit_status (fst run) = 0 \/ main.exit_status (fst run) = 1)
  /\ (fst run = Ok tt ->
      (trace.items lines).*1 = cv_ids
      /\ trace.count snd (trace.items lines) = length cv_ids
      /\ main.Styled main.GREEN (main.Summary (length cv_ids) (length cv_ids)) ∈ lines).
Proof.
  cbv zeta. destruct (main.base_url g) as [b|] eqn:Hb.
  - rewrite (update_unfold g cv_ids p _ ltac:(rewrite Hb; reflexivity)). cbv zeta.
    destruct (core.auth _ _ _) as [[[|]|e] [u1 w1]]; simpl.
    2-3: split; [auto|]; split; [auto|]; discriminate.
    match goal with |- context [main.update_each ?v ?ids ?m (?x, ?q)] =>
      destruct (update_each_shape v ids m x q)
        as (r & p' & evs & lines & Heach & Hlog & Hout & Hlines & Hcalls & Hres)
    end.
    rewrite Heach. simpl in Hout. destruct r as [a|e]; simpl;
      [|split; [auto|]; split; [auto|]; discriminate].
    destruct Hres as (Hids & Ha & _ & _ & _). simpl in Ha.
    pose proof (count_le_length snd (trace.items lines)) as Hle.
    rewrite <- (length_fmap fst), Hids, <- Ha in Hle.
    destruct (a <? length cv_ids)%nat eqn:Hlt; simpl;
      [split; [auto|]; split; [auto|]; discriminate|].
    apply Nat.ltb_ge in Hlt. assert (a = length cv_ids) as Hall by lia.
    split; [auto|]. split; [auto|]. intros _.
    rewrite Hout, <- !app_assoc, since_app.
    unfold trace.items in *. rewrite !omap_app, !fmap_app, !count_app, Hids, <- Ha.
    unfold trace.intro_lines. destruct (main.verbose g); simpl;
      rewrite ?app_nil_r, ?Nat.add_0_r, <- Hall;
      (split; [reflexivity|]); (split; [reflexivity|]); find_line.
  - run_main. rewrite Hb. simpl.
    destruct (main.verbose g); simpl; (split; [auto|]); (split; [auto|]); discriminate.
Qed.

(** Without a base URL (an empty [--url] leaves [None]) [update] fails with
    exit status 1 before any client exists: the world is as it was, nothing
    is sent and nothing is closed, and the error line reports the
    [AttributeError]. *)
Theorem update_without_base_url g cv_ids p :
  main.base_url g = None ->
  let run := main.update g cv_ids p in
  fst run = Raise (Exit 1)
  /\ main.world (snd run) = main.world p
  /\ exists msg,
       main.Styled main.RED (main.Unexpected (AttributeError msg))
       ∈ trace.since (main.stdout p) (main.stdout (snd run)).
Proof.
  intros Hb. cbv zeta. run_main. rewrite Hb. simpl.
  destruct (main.verbose g); simpl; (split; [reflexivity|]); (split; [reflexivity|]);
    eexists; rewrite <- ?app_assoc, since_app; find_line.
Qed.

(** The calls of [auth]: one or two, all of the login URL. *)
Lemma auth_events login password this w :
  exists evs,
    log (snd (snd (core.auth login password (this, w)))) = log w ++ evs
    /\ (1 <= length evs <= 2)%nat
    /\ Forall (fun e => trace.is_call e = true) evs
    /\ Forall (fun r => url r = core.login_url this) (trace.requests evs).
Proof.
  destruct (truthy (core.xsrf this)) eqn:Ht.
  - rewrite (auth_unfold_cached _ _ _ _ Ht).
    destruct (post _ _ _ _ w) as [a w'] eqn:E.
    destruct (request_logs _ _ _ _ _ E) as [wire Hlog].
    eexists. split; [destruct a; exact Hlog|]. simpl.
    split; [lia|]. split; repeat constructor.
  - rewrite (auth_unfold_fetch _ _ _ _ Ht), get_xsrf_unfold.
    destruct (get _ _ w) as [a w1] eqn:E.
    destruct (request_logs _ _ _ _ _ E) as [wire Hlog].
    destruct a as [response|e];
      [destruct (Cookies_get "_xsrf" (cookies response)) as [value|e]|].
    + destruct (post _ _ _ _ w1) as [a' w'] eqn:E'.
      destruct (request_logs _ _ _ _ _ E') as [wire' Hlog'].
      eexists. split.
      * destruct a'; simpl; rewrite Hlog', Hlog, <- app_assoc; reflexivity.
      * simpl. split; [lia|]. split; repeat constructor.
    + eexists. split; [exact Hlog|]. simpl. split; [lia|]. split; repeat constructor.
    + eexists. split; [exact Hlog|]. simpl. split; [lia|]. split; repeat constructor.
Qed.

(** The calls of a run of [update], in order: one or two calls of the login
    URL, then touch calls for the first identifiers of the list, one call
    each and in the order of the list (none unless [auth] returned true),
    and last the closing of the client, which happens on every way out. *)
Theorem update_calls_in_order g cv_ids p u :
  core.__init__ (main.base_url g) = Ok u ->
  let after := core.auth (main.login g) (main.password g) (u, main.world p) in
  let this1 := fst (snd after) in
  let run := main.update g cv_ids p in
  exists login_evs touch_evs,
    trace.since (log (main.world p)) (log (main.world (snd run)))
    = login_evs ++ touch_evs ++ [ClientClose]
    /\ log (snd (snd after)) = log (main.world p) ++ login_evs
    /\ (1 <= length login_evs <= 2)%nat
    /\ Forall (fun e => trace.is_call e = true) (login_evs ++ touch_evs)
    /\ Forall (fun r => url r = core.login_url u) (trace.requests login_evs)
    /\ trace.requests touch_evs `prefix_of` map (trace.touch_request this1) cv_ids
    /\ (fst after <> Ok true -> touch_evs = []).
Proof.
  intros Hinit. cbv zeta. rewrite (update_unfold g cv_ids p u Hinit). cbv zeta.
  destruct (auth_events (main.login g) (main.password g) u (main.world p))
    as (login_evs & Hlog & Hlen & Hcalls & Hurls).
  destruct (core.auth _ _ _) as [[[|]|e] [u1 w1]]; simpl in *.
  2-3: exists login_evs, []; rewrite Hlog, <- app_assoc, since_app, app_nil_r;
    repeat (split; [first [reflexivity | assumption | lia | apply prefix_nil]|]);
    reflexivity.
  match goal with |- context [main.update_each ?v ?ids ?m (?x, ?q)] =>
    destruct (update_each_shape v ids m x q)
      as (r & p' & evs & lines & Heach & Hlogs & Hout & Hlines & Hcalls' & Hres)
  end.
  rewrite Heach. simpl in Hlogs.
  exists login_evs, evs.
  assert (trace.requests evs `prefix_of` map (trace.touch_request u1) cv_ids) as Hprefix.
  { destruct r as [a|e].
    - destruct Hres as (_ & _ & _ & _ & ->).
      destruct (truthy (core.xsrf u1)); [reflexivity|apply prefix_nil].
    - destruct Hres as (done & id & rest & pre & wire & -> & _ & _ & _ & -> & _).
      exists (map (trace.touch_request u1) rest).
      rewrite <- fmap_app, <- app_assoc. reflexivity. }
  destruct r as [a|e]; [destruct (a <? length cv_ids)%nat|]; simpl;
    rewrite Hlogs, Hlog, <- !app_assoc, since_app;
    repeat (split; [first [reflexivity | assumption | lia | apply Forall_app; auto]|]);
    congruence.
Qed.

Lemma summary_is_no_loop_line l k total :
  trace.loop_line l = true -> l <> main.Styled main.GREEN (main.Summary k total).
Proof. intros Hl ->. discriminate. Qed.

(** A fault ends the batch.  In a run of [update] in which [auth] returned
    true and a later call of the client raised: the run ends with exit
    status 1 after reporting the exception; the call that raised is the
    touch call of some identifier and the last call of the run; outcome
    lines were printed for the identifiers before it and for no other; the
    identifiers after it were not touched; and no summary line is printed. *)
Theorem fault_ends_the_batch g cv_ids p u u1 w1 :
  core.__init__ (main.base_url g) = Ok u ->
  core.auth (main.login g) (main.password g) (u, main.world p) = (Ok true, (u1, w1)) ->
  let run := main.update g cv_ids p in
  let lines := trace.since (main.stdout p) (main.stdout (snd run)) in
  let evs := trace.since (log w1) (log (main.world (snd run))) in
  ~ trace.calm evs ->
  fst run = Raise (Exit 1)
  /\ (forall k total, main.Styled main.GREEN (main.Summary k total) ∉ lines)
  /\ exists done cv_id rest pre wire e,
       cv_ids = done ++ cv_id :: rest
       /\ (trace.items lines).*1 = done
       /\ evs = pre ++ [ClientCall (trace.touch_request u1 cv_id) wire (Raise e);
                        ClientClose]
       /\ trace.calm pre
       /\ trace.requests evs = map (trace.touch_request u1) (done ++ [cv_id])
       /\ main.Styled main.RED (main.Unexpected e) ∈ lines.
Proof.
  intros Hinit Hauth. cbv zeta. rewrite (update_unfold g cv_ids p u Hinit). cbv zeta.
  rewrite Hauth.
  match goal with |- context [main.update_each ?v ?ids ?m (?x, ?q)] =>
    destruct (update_each_shape v ids m x q)
      as (r & p' & evs & lines & Heach & Hlogs & Hout & Hlines & Hcalls' & Hres)
  end.
  rewrite Heach. simpl in Hlogs, Hout.
  destruct r as [a|e].
  - destruct Hres as (_ & _ & Hcalm & _ & _).
    destruct (a <? length cv_ids)%nat; simpl; rewrite Hlogs, <- app_assoc, since_app;
      intros Hno; exfalso; apply Hno; apply Forall_app;
      (split; [exact Hcalm|repeat constructor]).
  - destruct Hres as (done & id & rest & pre & wire & -> & Hids & -> & Hcalm & Hreqs & _).
    simpl. intros _. split; [reflexivity|].
    rewrite Hout, Hlogs, <- !app_assoc, !since_app. split.
    + intros k total Hin.
      assert (main.Styled main.GREEN (main.Summary k total) ∉ lines) as Hloop.
      { intros Hl. rewrite Forall_forall in Hlines.
        exact (summary_is_no_loop_line _ k total (Hlines _ Hl) eq_refl). }
      unfold trace.intro_lines, trace.traceback_lines in Hin.
      destruct (main.verbose g); simpl in Hin;
        repeat (apply elem_of_cons in Hin as [Hin|Hin]; [discriminate|]);
        apply elem_of_app in Hin as [Hin|Hin]; try contradiction;
        repeat (apply elem_of_cons in Hin as [Hin|Hin]; [discriminate|]);
        inversion Hin.
    + exists done, id, rest, pre, wire, e.
      split; [reflexivity|]. split.
      { unfold trace.items in *. rewrite !omap_app, !fmap_app, Hids.
        unfold trace.intro_lines, trace.traceback_lines.
        destruct (main.verbose g); simpl; rewrite ?app_nil_r; reflexivity. }
      split; [reflexivity|]. split; [exact Hcalm|]. split.
      { unfold trace.requests in *. rewrite app_assoc, omap_app, Hreqs. simpl.
        apply app_nil_r. }
      find_line.
Qed.

(** [check] makes one call of the client, the GET of the login page, and
    closes the client: it never posts anything.  It returns exactly when
    that call hands back a response and the lookup of the [_xsrf] cookie in
    it gives a non-empty value; in particular it ends with exit status 1
    when the lookup raises [CookieConflict]. *)
Theorem check_only_gets_the_login_page b p u :
  core.__init__ (Some b) = Ok u ->
  let run := main.check b p in
  exists wire answer,
    trace.since (log (main.world p)) (log (main.world (snd run)))
    = [ClientCall (trace.login_page_request u) wire answer; ClientClose]
    /\ method (trace.login_page_request u) = GET
    /\ (fst run = Ok tt <->
        exists response tok,
          answer = Ok response
          /\ Cookies_get "_xsrf" (cookies response) = Ok (Some tok)
          /\ nonempty tok = true)
    /\ (forall response e,
          answer = Ok response ->
          Cookies_get "_xsrf" (cookies response) = Raise e ->
          fst run = Raise (Exit 1)).
Proof.
  intros [= <-]. cbv zeta. run_main. unfold core.eval. rewrite get_xsrf_unfold. unfold get.
  destruct (request _ _ (main.world p)) as [a w'] eqn:E.
  destruct (request_logs _ _ _ _ _ E) as [wire Hlog].
  exists wire, a. split; [|split; [reflexivity|]].
  - destruct a as [response|e]; simpl;
      [destruct (Cookies_get "_xsrf" (cookies response)) as [value|e]; simpl;
       [destruct (truthy value); simpl|]|];
      rewrite Hlog, <- app_assoc, since_app; reflexivity.
  - destruct a as [response|e]; simpl;
      [destruct (Cookies_get "_xsrf" (cookies response)) as [[tok|]|e] eqn:Hc; simpl;
       [destruct (nonempty tok) eqn:Hn; simpl| |]|].
    all: split;
      [split;
       [first [discriminate | intros _; eauto]
       |intros (r' & tok' & Hr & Hc' & Hn'); try reflexivity; simplify_eq; congruence]
      |intros r' e' Hr Hc'; try reflexivity; simplify_eq; congruence].
Qed.

Lemma essential_app (l k : list main.line) :
  trace.essential (l ++ k) = trace.essential l ++ trace.essential k.
Proof. apply omap_app. Qed.

(** The loop with and without [verbose]: same result, same world, same
    lines apart from the [print_info] ones. *)
Lemma update_each_verbose cv_ids : forall n u p q,
  main.world p = main.world q ->
  trace.essential (main.stdout p) = trace.essential (main.stdout q) ->
  let loud := main.update_each true cv_ids n (u, p) in
  let quiet := main.update_each false cv_ids n (u, q) in
  fst loud = fst quiet
  /\ fst (snd loud) = fst (snd quiet)
  /\ main.world (snd (snd loud)) = main.world (snd (snd quiet))
  /\ trace.essential (main.stdout (snd (snd loud)))
     = trace.essential (main.stdout (snd (snd quiet))).
Proof.
  induction cv_ids as [|cv_id rest IH]; intros n u p q Hw Hout; cbv zeta.
  - simpl. auto.
  - rewrite !update_each_cons. cbv zeta. simpl. rewrite Hw.
    destruct (core.update_cv cv_id (u, main.world q)) as [[ok|e] [u' w']].
    + apply IH; simpl; [reflexivity|].
      rewrite !essential_app, Hout. destruct ok; simpl; rewrite ?app_nil_r; reflexivity.
    + simpl. rewrite !essential_app, Hout. simpl. rewrite ?app_nil_r. auto.
Qed.

(** [verbose] only adds output: with the flag set or not, [update] ends the
    same way and leaves the same world (the same calls, in the same order),
    and prints the same lines apart from the [print_info] lines and the
    traceback. *)
Theorem verbose_only_adds_output g cv_ids p :
  let loud := main.update (trace.with_verbose g true) cv_ids p in
  let quiet := main.update (trace.with_verbose g false) cv_ids p in
  fst loud = fst quiet
  /\ main.world (snd loud) = main.world (snd quiet)
  /\ trace.essential (main.stdout (snd loud)) = trace.essential (main.stdout (snd quiet)).
Proof.
  cbv zeta. destruct (main.base_url g) as [b|] eqn:Hb.
  - rewrite (update_unfold (trace.with_verbose g true) cv_ids p _
               ltac:(simpl; rewrite Hb; reflexivity)).
    rewrite (update_unfold (trace.with_verbose g false) cv_ids p _
               ltac:(simpl; rewrite Hb; reflexivity)).
    cbv zeta. unfold trace.intro_lines, trace.traceback_lines. simpl.
    destruct (core.auth _ _ _) as [[[|]|e] [u1 w1]]; simpl.
    2-3: rewrite ?app_nil_r, !essential_app; simpl; rewrite ?app_nil_r; auto.
    match goal with
    | |- context [main.update_each true _ _ (_, ?pl)] =>
        match goal with
        | |- context [main.update_each false _ _ (_, ?pq)] =>
            destruct (update_each_verbose cv_ids 0 u1 pl pq) as (Hr & Hu & Hw & Hout);
              [reflexivity
              |simpl; rewrite !essential_app; simpl; rewrite ?app_nil_r; reflexivity|]
        end
    end.
    destruct (main.update_each true _ _ _) as [rl [ul pl']].
    destruct (main.update_each false _ _ _) as [rq [uq pq']].
    simpl in Hr, Hu, Hw, Hout. subst rq.
    destruct rl as [a|e]; [destruct (a <? length cv_ids)%nat|]; simpl;
      rewrite Hw, !essential_app, Hout; simpl; rewrite ?app_nil_r; auto.
  - run_main. rewrite Hb. simpl. rewrite !essential_app. simpl.
    rewrite ?app_nil_r. auto.
Qed.

End CommandFacts.

Lemma fetched_token_is_reused_witness :
  let w := mock.fresh_world (H := mock.plain) tt in
  let after := core.auth (H := mock.plain) mock.user mock.secret (mock.updater, w) in
  let this1 := fst (snd after) in
  let w1 := snd (snd after) in
  truthy (core.xsrf mock.updater) = false
  /\ after = (Ok true, (this1, w1))
  /\ truthy (core.xsrf this1) = true
  /\ exists tok,
       core.xsrf this1 = Some tok
       /\ headers (trace.touch_request this1 "a") !! "X-Xsrftoken" = Some tok.
Proof.
  cbv zeta. split; [reflexivity|]. split; [vm_compute; reflexivity|].
  split; [vm_compute; reflexivity|].
  destruct (fetched_token_is_reused (H := mock.plain) mock.user mock.secret
              mock.updater (mock.fresh_world (H := mock.plain) tt) true
              (fst (snd (core.auth (H := mock.plain) mock.user mock.secret
                           (mock.updater, mock.fresh_world (H := mock.plain) tt))))
              (snd (snd (core.auth (H := mock.plain) mock.user mock.secret
                           (mock.updater, mock.fresh_world (H := mock.plain) tt))))
              "a" mock.user mock.secret
              eq_refl ltac:(vm_compute; reflexivity) ltac:(vm_compute; reflexivity))
    as (tok & Htok & _ & _ & Hhead & _).
  exists tok. split; assumption.
Defined.

Lemma touch_post_on_the_wire_witness :
  let this := mock.updater_with (Some "tok") in
  let w := mock.fresh_world (H := mock.plain) tt in
  core.xsrf this = Some "tok"
  /\ nonempty "tok" = true
  /\ is_closed (core.client this) = false
  /\ default_headers (core.client this) = core.COMMON_HEADERS
  /\ url_error (Http := mock.plain) (core.touch_url this) = None
  /\ ascii_only "tok" = true
  /\ ascii_only (core.base_url this) = true
  /\ ascii_only "a" = true
  /\ exists sent first rest answer,
       trace.since (log w) (log (snd (snd (core.update_cv (H := mock.plain) "a" (this, w)))))
       = [ClientCall (trace.touch_request this "a") ((sent, first) :: rest) answer]
       /\ headers sent !! "X-Xsrftoken" = Some "tok"
       /\ headers sent !! "DNT" = Some "1".
Proof.
  cbv zeta. do 8 (split; [reflexivity|]).
  destruct (touch_post_on_the_wire (H := mock.plain) "a" (mock.updater_with (Some "tok"))
              (mock.fresh_world (H := mock.plain) tt) "tok"
              eq_refl eq_refl eq_refl eq_refl eq_refl eq_refl eq_refl eq_refl)
    as (sent & first & rest & answer & Hlog & _ & _ & _ & _ & _ & Htok & _ & _ & Hcommon).
  exists sent, first, rest, answer. split; [exact Hlog|]. split; [exact Htok|].
  apply Hcommon. reflexivity.
Defined.

Lemma direct_answer_is_final_witness :
  let this := mock.updater_with (Some "tok") in
  let w := mock.fresh_world (H := mock.forbidding) tt in
  let run := core.auth (H := mock.forbidding) mock.user mock.secret (this, w) in
  is_closed (core.client this) = false
  /\ truthy (core.xsrf this) = true
  /\ trace.direct (Ok (mock.page 403 None None)) = true
  /\ fst run = Ok false.
Proof.
  cbv zeta. do 3 (split; [reflexivity|]).
  eapply (fun req sent rest answer Hsince Hdirect =>
            proj2 (proj2 (direct_answer_is_final (H := mock.forbidding)
                            mock.user mock.secret "a"
                            (mock.updater_with (Some "tok"))
                            (mock.fresh_world (H := mock.forbidding) tt)
                            eq_refl eq_refl _ (or_introl eq_refl)
                            req sent (Ok (mock.page 403 None None)) rest answer
                            Hsince Hdirect))).
  - reflexivity.
  - reflexivity.
Defined.

Lemma update_without_base_url_witness :
  let p := mock.fresh_proc (H := mock.plain) tt in
  let run := main.update (H := mock.plain) mock.no_url ["a"] p in
  main.base_url mock.no_url = None
  /\ fst run = Raise (Exit 1)
  /\ main.world (snd run) = main.world p.
Proof.
  cbv zeta. split; [reflexivity|].
  destruct (update_without_base_url (H := mock.plain) mock.no_url ["a"]
              (mock.fresh_proc (H := mock.plain) tt) eq_refl) as (Hr & Hw & _).
  split; assumption.
Defined.

Lemma update_calls_in_order_witness :
  let p := mock.fresh_proc (H := mock.partial) tt in
  let run := main.update (H := mock.partial) mock.globals ["a"; "b"; "c"] p in
  core.__init__ (main.base_url mock.globals) = Ok mock.updater
  /\ exists login_evs touch_evs,
       trace.since (log (main.world p)) (log (main.world (snd run)))
       = login_evs ++ touch_evs ++ [ClientClose]
       /\ (1 <= length login_evs <= 2)%nat.
Proof.
  cbv zeta. split; [reflexivity|].
  destruct (update_calls_in_order (H := mock.partial) mock.globals ["a"; "b"; "c"]
              (mock.fresh_proc (H := mock.partial) tt) mock.updater eq_refl)
    as (login_evs & touch_evs & Hlog & _ & Hlen & _).
  exists login_evs, touch_evs. split; assumption.
Defined.

Lemma fault_ends_the_batch_witness :
  let g := mock.globals in
  let p := mock.fresh_proc (H := mock.flaky) tt in
  let after := core.auth (H := mock.flaky) (main.login g) (main.password g)
                 (mock.updater, main.world p) in
  let run := main.update (H := mock.flaky) g ["a"; "b"; "c"] p in
  let evs := trace.since (log (snd (snd after))) (log (main.world (snd run))) in
  core.__init__ (main.base_url g) = Ok mock.updater
  /\ after = (Ok true, (fst (snd after), snd (snd after)))
  /\ ~ trace.calm evs
  /\ fst run = Raise (Exit 1)
  /\ forall k total,
       main.Styled main.GREEN (main.Summary k total)
       ∉ trace.since (main.stdout p) (main.stdout (snd run)).
Proof.
  cbv zeta.
  assert (~ trace.calm
            (trace.since
               (log (snd (snd (core.auth (H := mock.flaky) (main.login mock.globals)
                                 (main.password mock.globals)
                                 (mock.updater,
                                  main.world (mock.fresh_proc (H := mock.flaky) tt))))))
               (log (main.world
                       (snd (main.update (H := mock.flaky) mock.globals ["a"; "b"; "c"]
                               (mock.fresh_proc (H := mock.flaky) tt))))))) as Hfault.
  { intros Hc. vm_compute in Hc. rewrite !Forall_cons in Hc.
    destruct Hc as (_ & Hb & _). discriminate Hb. }
  split; [reflexivity|]. split; [vm_compute; reflexivity|]. split; [exact Hfault|].
  destruct (fault_ends_the_batch (H := mock.flaky) mock.globals ["a"; "b"; "c"]
              (mock.fresh_proc (H := mock.flaky) tt) mock.updater
              (fst (snd (core.auth (H := mock.flaky) (main.login mock.globals)
                           (main.password mock.globals)
                           (mock.updater, mock.fresh_world (H := mock.flaky) tt))))
              (snd (snd (core.auth (H := mock.flaky) (main.login mock.globals)
                           (main.password mock.globals)
                           (mock.updater, mock.fresh_world (H := mock.flaky) tt))))
              eq_refl ltac:(vm_compute; reflexivity) Hfault) as (Hr & Hno & _).
  split; assumption.
Defined.

Lemma check_only_gets_the_login_page_witness :
  let p := mock.fresh_proc (H := mock.conflicting) tt in
  let run := main.check (H := mock.conflicting) "https://hh.ru/" p in
  core.__init__ (Some "https://hh.ru/") = Ok mock.updater
  /\ (exists wire answer,
        trace.since (log (main.world p)) (log (main.world (snd run)))
        = [ClientCall (trace.login_page_request mock.updater) wire answer; ClientClose])
  /\ fst run = Raise (Exit 1).
Proof.
  cbv zeta. split; [reflexivity|].
  destruct (check_only_gets_the_login_page (H := mock.conflicting) "https://hh.ru/"
              (mock.fresh_proc (H := mock.conflicting) tt) mock.updater eq_refl)
    as (wire & answer & Hlog & _ & _ & Hconflict).
  split; [exists wire, answer; exact Hlog|].
  vm_compute in Hlog. injection Hlog as _ <-.
  eapply Hconflict; [reflexivity|]. vm_compute. reflexivity.
Defined.

Lemma touch_that_cannot_be_encoded_witness :
  let this := mock.updater_with (Some "tok") in
  let w := mock.fresh_world (H := mock.plain) tt in
  truthy (core.xsrf this) = true
  /\ ascii_only (default "" (core.xsrf this))
     && (ascii_only (core.base_url this) && ascii_only "é") = false
  /\ trace.offline this w (core.update_cv (H := mock.plain) "é" (this, w)).
Proof.
  cbv zeta. split; [reflexivity|]. split; [reflexivity|].
  exact (touch_that_cannot_be_encoded (H := mock.plain) "é"
           (mock.updater_with (Some "tok")) (mock.fresh_world (H := mock.plain) tt)
           eq_refl eq_refl).
Defined.
